(** * Inventory-Management: the ledger store and its aggregations

    A shallow embedding of [src/inventory.py].  The two session tables
    ([st.session_state.inventory], [st.session_state.transactions]) are the
    state; the utility functions [add_product], [update_product],
    [delete_product] and [log_transaction] are computations in a small
    state-and-exception monad; the dashboard, the inventory view and the
    low stock report are read-only computations over the same state.

    Modelling conventions.
    - A pandas DataFrame whose index is the default RangeIndex is a list of
      rows: the label of a row is its position.  Every value the source
      stores in the session is built that way (the seed frames, [pd.concat]
      with [ignore_index=True], [reset_index(drop=True)]).  A frame obtained
      by boolean indexing keeps the labels of the rows it selects, so it is
      a list of (label, row) pairs.
    - A Series is the list of its values; element-wise operators are
      [zip_with], a boolean mask is a [list bool].
    - Cells are typed as the source's forms produce them: text is [string]
      (ASCII), [Quantity] and [Reorder Level] are integers ([Z], exact),
      [Price] is an exact rational ([Qc]); the machine representation pandas
      picks for a numeric column (int64, float64) is not modelled.
    - [datetime.now()] is an argument of the operation that reads it. *)

From Stdlib Require Import ZArith QArith Qcanon String Ascii Bool Lia.
From Stdlib Require Import Decimal DecimalString DecimalNat.
From stdpp Require Import base tactics numbers option strings list.
From stdpp Require Import sorting.

Local Open Scope Z_scope.

(** ** Data model *)

Definition datetime := Z.

(** A row of [st.session_state.inventory] (the ten columns of the seed). *)
Module Inv.
Record row := mk {
  Product_ID : string;
  Product_Name : string;
  Category : string;
  Quantity : Z;
  Price : Qc;
  Supplier : string;
  Location : string;
  Reorder_Level : Z;
  Expiry_Date : option datetime;
  Status : string
}.
End Inv.

(** A row of [st.session_state.transactions]. *)
Module Txn.
Record row := mk {
  Transaction_ID : string;
  Product_ID : string;
  Product_Name : string;
  Quantity : Z;
  Transaction_Type : string;
  Date : datetime
}.
End Txn.

(** A frame with a RangeIndex, and a frame that carries explicit labels. *)
Abbreviation frame R := (list R) (only parsing).
Abbreviation labelled R := (list (nat * R)) (only parsing).

Record session_state := {
  inventory : frame Inv.row;
  transactions : frame Txn.row
}.

(** ** The pandas operations the source uses *)

Section Pandas.
Context {R : Type}.

(** [df['c']] *)
Definition col {A} (c : R -> A) (df : frame R) : list A := map c df.

(** The rows of [df] with their labels. *)
Definition with_index (df : frame R) : labelled R :=
  combine (seq 0 (length df)) df.

(** [df[mask]]: the rows whose mask entry is [True], labels kept. *)
Fixpoint select (mask : list bool) (rows : labelled R) : labelled R :=
  match mask, rows with
  | b :: mask', r :: rows' =>
      if b then r :: select mask' rows' else select mask' rows'
  | _, _ => []
  end.

Definition bool_index (df : frame R) (mask : list bool) : labelled R :=
  select mask (with_index df).

(** [l['c']] on a frame that carries labels. *)
Definition lcol {A} (c : R -> A) (l : labelled R) : list A :=
  map (fun ir => c (snd ir)) l.

(** [.index] and [.reset_index(drop=True)] *)
Definition index (l : labelled R) : list nat := map fst l.
Definition reset_index (l : labelled R) : frame R := map snd l.

(** [pd.concat([a, b], ignore_index=True)] *)
Definition concat_ignore_index (a b : frame R) : frame R := a ++ b.

(** [df.at[idx, key] = value], the cell update given as a function on
    the row.  With a label that is not in the index pandas would enlarge
    the frame, where [alter] changes nothing; the source only passes a label
    it has just read from [.index], so that case does not arise. *)
Definition at_set (idx : nat) (upd : R -> R) (df : frame R) : frame R :=
  alter upd idx df.
End Pandas.

(** [x in series.values] on text. *)
Definition isin (x : string) (values : list string) : bool :=
  existsb (String.eqb x) values.

(** [series == x], [series != x] on text. *)
Definition series_eq (s : list string) (x : string) : list bool :=
  map (fun y => String.eqb y x) s.
Definition series_ne (s : list string) (x : string) : list bool :=
  map (fun y => negb (String.eqb y x)) s.

(** [a <= b], [a * b] element-wise and [.sum()]. *)
Definition series_le (a b : list Z) : list bool := zip_with Z.leb a b.
Definition series_mul (a : list Z) (b : list Qc) : list Qc :=
  zip_with (fun q p => (Qc_of_Z q * p)%Qc) a b.
Definition series_sum (s : list Z) : Z := fold_left Z.add s 0.
Definition series_sumQ (s : list Qc) : Qc := fold_left Qcplus s 0%Qc.

(** ** The monad of the utility functions *)

Inductive exn := IndexError.

Inductive outcome (A : Type) :=
| Returned (a : A) (s : session_state)
| Raised (e : exn) (s : session_state).
Arguments Returned {A} a s.
Arguments Raised {A} e s.

Definition M (A : Type) := session_state -> outcome A.

Definition ret {A} (a : A) : M A := fun s => Returned a s.
Definition bind {A B} (m : M A) (k : A -> M B) : M B :=
  fun s => match m s with
           | Returned a s' => k a s'
           | Raised e s' => Raised e s'
           end.
Definition raise {A} (e : exn) : M A := fun s => Raised e s.
Definition get_inventory : M (frame Inv.row) := fun s => Returned (inventory s) s.
Definition get_transactions : M (frame Txn.row) :=
  fun s => Returned (transactions s) s.
Definition set_inventory (df : frame Inv.row) : M unit :=
  fun s => Returned tt {| inventory := df; transactions := transactions s |}.
Definition set_transactions (df : frame Txn.row) : M unit :=
  fun s => Returned tt {| inventory := inventory s; transactions := df |}.

Declare Scope py_scope.
Delimit Scope py_scope with py.
Notation "x <- m ;; k" := (bind m (fun x => k))
  (at level 100, m at next level, right associativity) : py_scope.
Notation "m ;; k" := (bind m (fun _ => k))
  (at level 100, right associativity) : py_scope.
Local Open Scope py_scope.

(** The state an outcome leaves behind. *)
Definition final_state {A} (o : outcome A) : session_state :=
  match o with Returned _ s => s | Raised _ s => s end.

(** ** Transaction identifiers: [f"T{n:03d}"] *)

Fixpoint zeros (k : nat) : string :=
  match k with O => "" | S k' => String "0" (zeros k') end.

(** [format(n, "03d")] for a non-negative [n]: decimal digits, padded on the
    left with zeros up to width three, never truncated. *)
Definition format_03d (n : nat) : string :=
  let digits := NilEmpty.string_of_uint (Nat.to_uint n) in
  zeros (3 - String.length digits) +:+ digits.

(** ** Ledger store (lines 35-66) *)

Definition log_transaction (now : datetime)
    (product_id product_name : string) (quantity : Z) (trans_type : string)
  : M unit :=
  trans <- get_transactions ;;
  let new_trans :=
    [ {| Txn.Transaction_ID := "T" +:+ format_03d (length trans + 1);
         Txn.Product_ID := product_id;
         Txn.Product_Name := product_name;
         Txn.Quantity := quantity;
         Txn.Transaction_Type := trans_type;
         Txn.Date := now |} ] in
  set_transactions (concat_ignore_index trans new_trans).

Definition add_product (now : datetime) (product_data : Inv.row)
  : M (bool * string) :=
  inv <- get_inventory ;;
  if isin (Inv.Product_ID product_data) (col Inv.Product_ID inv)
  then ret (false, "Product ID already exists")
  else
    let new_row := [product_data] in
    set_inventory (concat_ignore_index inv new_row) ;;
    log_transaction now (Inv.Product_ID product_data)
      (Inv.Product_Name product_data) (Inv.Quantity product_data) "Purchase" ;;
    ret (true, "Product added successfully").

Definition delete_product (product_id : string) : M string :=
  inv <- get_inventory ;;
  set_inventory
    (reset_index
       (bool_index inv (series_ne (col Inv.Product_ID inv) product_id))) ;;
  ret "Product deleted successfully".

(** The columns of the inventory frame, and a cell value of any of them. *)
Inductive column :=
| Product_ID | Product_Name | Category | Quantity | Price
| Supplier | Location | Reorder_Level | Expiry_Date | Status.

#[global] Instance column_eq_dec : EqDecision column.
Proof. solve_decision. Defined.

Inductive value :=
| Text (s : string)
| Int (z : Z)
| Num (q : Qc)
| Date_or_None (d : option datetime).

(** [df.at[idx, c]] read on a row. *)
Definition cell (c : column) (r : Inv.row) : value :=
  match c with
  | Product_ID => Text (Inv.Product_ID r)
  | Product_Name => Text (Inv.Product_Name r)
  | Category => Text (Inv.Category r)
  | Quantity => Int (Inv.Quantity r)
  | Price => Num (Inv.Price r)
  | Supplier => Text (Inv.Supplier r)
  | Location => Text (Inv.Location r)
  | Reorder_Level => Int (Inv.Reorder_Level r)
  | Expiry_Date => Date_or_None (Inv.Expiry_Date r)
  | Status => Text (Inv.Status r)
  end.

(** One entry [key: value] of the [updates] dict, the value typed as its
    column is. *)
Inductive item :=
| Set_Product_ID (v : string)
| Set_Product_Name (v : string)
| Set_Category (v : string)
| Set_Quantity (v : Z)
| Set_Price (v : Qc)
| Set_Supplier (v : string)
| Set_Location (v : string)
| Set_Reorder_Level (v : Z)
| Set_Expiry_Date (v : option datetime)
| Set_Status (v : string).

Definition key (i : item) : column :=
  match i with
  | Set_Product_ID _ => Product_ID
  | Set_Product_Name _ => Product_Name
  | Set_Category _ => Category
  | Set_Quantity _ => Quantity
  | Set_Price _ => Price
  | Set_Supplier _ => Supplier
  | Set_Location _ => Location
  | Set_Reorder_Level _ => Reorder_Level
  | Set_Expiry_Date _ => Expiry_Date
  | Set_Status _ => Status
  end.

Definition new_value (i : item) : value :=
  match i with
  | Set_Product_ID v | Set_Product_Name v | Set_Category v
  | Set_Supplier v | Set_Location v | Set_Status v => Text v
  | Set_Quantity v | Set_Reorder_Level v => Int v
  | Set_Price v => Num v
  | Set_Expiry_Date v => Date_or_None v
  end.

(** The effect of [df.at[idx, key] = value] on the row labelled [idx]. *)
Definition assign (i : item) (r : Inv.row) : Inv.row :=
  let '(Inv.mk pid name cat qty price sup loc reorder expiry status) := r in
  match i with
  | Set_Product_ID v => Inv.mk v name cat qty price sup loc reorder expiry status
  | Set_Product_Name v => Inv.mk pid v cat qty price sup loc reorder expiry status
  | Set_Category v => Inv.mk pid name v qty price sup loc reorder expiry status
  | Set_Quantity v => Inv.mk pid name cat v price sup loc reorder expiry status
  | Set_Price v => Inv.mk pid name cat qty v sup loc reorder expiry status
  | Set_Supplier v => Inv.mk pid name cat qty price v loc reorder expiry status
  | Set_Location v => Inv.mk pid name cat qty price sup v reorder expiry status
  | Set_Reorder_Level v => Inv.mk pid name cat qty price sup loc v expiry status
  | Set_Expiry_Date v => Inv.mk pid name cat qty price sup loc reorder v status
  | Set_Status v => Inv.mk pid name cat qty price sup loc reorder expiry v
  end.

(** [for x in xs: body(x)] *)
Fixpoint for_each {A} (xs : list A) (body : A -> M unit) : M unit :=
  match xs with
  | [] => ret tt
  | x :: xs' => body x ;; for_each xs' body
  end.

(** [updates.items()] is the list of the dict's entries, in order. *)
Definition update_product (product_id : string) (updates : list item)
  : M string :=
  inv <- get_inventory ;;
  match index (bool_index inv (series_eq (col Inv.Product_ID inv) product_id)) with
  | [] => raise IndexError
  | idx :: _ =>
      for_each updates (fun kv =>
        inv' <- get_inventory ;;
        set_inventory (at_set idx (assign kv) inv')) ;;
      ret "Product updated successfully"
  end.

(** ** Aggregations *)

(** What [show_dashboard] puts on the page: the four values handed to
    [st.metric] (Total Value before it is formatted as text) and the low
    stock alert; the two charts are rendering and are left out.  The alert's
    table has the columns Product Name, Quantity and Reorder Level, and is
    shown only when some row is low on stock. *)
Record dashboard := {
  Total_Products : nat;
  Total_Quantity : Z;
  Low_Stock_Items : nat;
  Total_Value : Qc;
  low_stock_items : labelled Inv.row;
  Low_Stock_Alert : option (labelled (string * Z * Z))
}.

Definition show_dashboard : M dashboard :=
  inv <- get_inventory ;;
  let total_qty := series_sum (col Inv.Quantity inv) in
  let low_stock :=
    length (bool_index inv
              (series_le (col Inv.Quantity inv) (col Inv.Reorder_Level inv))) in
  let total_value :=
    series_sumQ (series_mul (col Inv.Quantity inv) (col Inv.Price inv)) in
  let low_stock_items :=
    bool_index inv
      (series_le (col Inv.Quantity inv) (col Inv.Reorder_Level inv)) in
  ret {| Total_Products := length inv;
         Total_Quantity := total_qty;
         Low_Stock_Items := low_stock;
         Total_Value := total_value;
         low_stock_items := low_stock_items;
         Low_Stock_Alert :=
           match low_stock_items with
           | [] => None
           | _ =>
               Some (map (fun '(i, r) =>
                            (i, (Inv.Product_Name r, Inv.Quantity r,
                                 Inv.Reorder_Level r)))
                         low_stock_items)
           end |}.

(** The "Low Stock Report" branch of [show_reports] (lines 267-272): the
    frame handed to [st.dataframe]. *)
Definition show_reports_low_stock : M (labelled Inv.row) :=
  inv <- get_inventory ;;
  let low_stock :=
    bool_index inv
      (series_le (col Inv.Quantity inv) (col Inv.Reorder_Level inv)) in
  ret low_stock.

(** ** Text search: [Series.str.contains(pat, case=False)]

    pandas compiles [pat] as a regular expression ([regex=True] is the
    default) with [re.IGNORECASE] and keeps the rows where [re.search]
    finds a match.  The fragment of the [re] syntax modelled here is: an
    ordinary character matches itself, [.] matches any character but a
    newline.  A pattern that uses any other special character is outside
    the fragment and [re_compile] answers [None] for it. *)

Inductive atom := Lit (c : ascii) | Dot.

Definition special (c : ascii) : bool :=
  existsb (Ascii.eqb c) (list_ascii_of_string ".^$*+?{}[]\|()").

Fixpoint re_compile (pat : string) : option (list atom) :=
  match pat with
  | EmptyString => Some []
  | String c pat' =>
      if Ascii.eqb c "." then cons Dot <$> re_compile pat'
      else if special c then None
      else cons (Lit c) <$> re_compile pat'
  end.

(** ASCII lower case, the folding [re.IGNORECASE] applies to ASCII text. *)
Definition lower (c : ascii) : ascii :=
  let n := N_of_ascii c in
  if ((65 <=? n) && (n <=? 90))%N then ascii_of_N (n + 32) else c.

Definition atom_matches (a : atom) (c : ascii) : bool :=
  match a with
  | Lit x => Ascii.eqb (lower x) (lower c)
  | Dot => negb (Ascii.eqb c "010")
  end.

Fixpoint match_here (p : list atom) (s : string) : bool :=
  match p, s with
  | [], _ => true
  | a :: p', String c s' => atom_matches a c && match_here p' s'
  | _ :: _, EmptyString => false
  end.

Fixpoint re_search (p : list atom) (s : string) : bool :=
  match_here p s
  || match s with
     | EmptyString => false
     | String _ s' => re_search p s'
     end.

Definition str_contains (s : list string) (pat : string) : option (list bool) :=
  p ← re_compile pat; Some (map (re_search p) s).

(** [series.isin(values)] *)
Definition series_isin (s : list string) (values : list string) : list bool :=
  map (fun x => isin x values) s.

(** Python truth of a list and of a string. *)
Definition truthy {A} (l : list A) : bool :=
  match l with [] => false | _ => true end.
Definition truthy_str (s : string) : bool :=
  match s with EmptyString => false | _ => true end.

(** ** Inventory view (lines 210-222)

    The widget values are the arguments; the result is [filtered_df], or
    [None] when the search term is outside the modelled [re] fragment. *)
Definition view_inventory
    (category_filter location_filter status_filter : list string)
    (search_term : string) : M (option (labelled Inv.row)) :=
  inv <- get_inventory ;;
  let filtered_df := with_index inv in
  let filtered_df :=
    if truthy category_filter
    then select (series_isin (lcol Inv.Category filtered_df) category_filter)
                filtered_df
    else filtered_df in
  let filtered_df :=
    if truthy location_filter
    then select (series_isin (lcol Inv.Location filtered_df) location_filter)
                filtered_df
    else filtered_df in
  let filtered_df :=
    if truthy status_filter
    then select (series_isin (lcol Inv.Status filtered_df) status_filter)
                filtered_df
    else filtered_df in
  if truthy_str search_term
  then ret (mask ← str_contains (lcol Inv.Product_Name filtered_df) search_term;
            Some (select mask filtered_df))
  else ret (Some filtered_df).

(** ** The seeded session (lines 10-32) *)

Definition seed_inventory : frame Inv.row :=
  [ Inv.mk "P001" "Laptop" "Electronics" 50 (Qc_of_Z 80000) "TechCorp"
      "Warehouse A" 10 None "Active";
    Inv.mk "P002" "Mouse" "Accessories" 200 (Qc_of_Z 500) "PeriTech"
      "Warehouse B" 50 None "Active";
    Inv.mk "P003" "Keyboard" "Accessories" 150 (Qc_of_Z 1200) "KeyMaster"
      "Warehouse A" 30 None "Active" ].

(** [timedelta(days=1)], with [datetime] counted in seconds. *)
Definition one_day : Z := 86400.

(** The two [datetime.now()] of line 31 are two readings of the clock. *)
Definition seed_transactions (now now' : datetime) : frame Txn.row :=
  [ Txn.mk "T001" "P001" "Laptop" 5 "Sale" (now - one_day);
    Txn.mk "T002" "P002" "Mouse" 10 "Purchase" now' ].

Definition seed (now now' : datetime) : session_state :=
  {| inventory := seed_inventory; transactions := seed_transactions now now' |}.


(** ** Auxiliary definitions used to state the properties *)

(** Labelling from [k]; [with_index] is the case [k = 0]. *)
Definition label_from {R} (k : nat) (l : list R) : labelled R :=
  combine (seq k (length l)) l.

(** A product that is not in the seed. *)
Definition desk : Inv.row :=
  Inv.mk "P004" "Desk" "Furniture" 7 (Qc_of_Z 4500) "WoodWorks" "Store Front"
    10 None "Active".


(** The row obtained by assigning the entries of [updates] in order. *)
Definition apply_updates (updates : list item) (r : Inv.row) : Inv.row :=
  foldl (fun r kv => assign kv r) r updates.

(** The value a dict holds for a key: with a list of entries, the one of
    the last entry for that key. *)
Fixpoint dict_get (c : column) (updates : list item) : option value :=
  match updates with
  | [] => None
  | kv :: rest =>
      match dict_get c rest with
      | Some v => Some v
      | None => if decide (key kv = c) then Some (new_value kv) else None
      end
  end.

(** A run of [add_product] calls, one after the other. *)
Fixpoint add_products (calls : list (datetime * Inv.row))
  : M (list (bool * string)) :=
  match calls with
  | [] => ret []
  | (now, P) :: calls' =>
      r <- add_product now P ;;
      rs <- add_products calls' ;;
      ret (r :: rs)
  end.


Fixpoint sumQ_over (f : Inv.row -> Qc) (rows : list Inv.row) : Qc :=
  match rows with
  | [] => 0%Qc
  | r :: rows' => (f r + sumQ_over f rows')%Qc
  end.

(** The low-stock predicate of the specification. *)
Definition low_stock (r : Inv.row) : Prop :=
  Inv.Quantity r <= Inv.Reorder_Level r.


(** The three columns the dashboard alert shows for a row. *)
Definition alert_columns (ir : nat * Inv.row) : nat * (string * Z * Z) :=
  (fst ir, (Inv.Product_Name (snd ir), Inv.Quantity (snd ir),
            Inv.Reorder_Level (snd ir))).

(** The arguments of one [log_transaction] call, and the clock it reads. *)
Record log_call := {
  call_time : datetime;
  call_product_id : string;
  call_product_name : string;
  call_quantity : Z;
  call_type : string
}.


(** The row a call appends when it is given the sequence number [n]. *)
Definition logged_row (n : nat) (c : log_call) : Txn.row :=
  {| Txn.Transaction_ID := "T" +:+ format_03d n;
     Txn.Product_ID := call_product_id c;
     Txn.Product_Name := call_product_name c;
     Txn.Quantity := call_quantity c;
     Txn.Transaction_Type := call_type c;
     Txn.Date := call_time c |}.


(** The sequence number a Transaction ID carries: the decimal number that
    follows the tag. *)
Definition seq_number (id : string) : option nat :=
  match id with
  | String "T" digits => Nat.of_uint <$> NilEmpty.uint_of_string digits
  | _ => None
  end.

(** The order of Transaction IDs: that of their sequence numbers. *)
Definition id_lt (a b : string) : Prop :=
  exists m n, seq_number a = Some m /\ seq_number b = Some n /\ (m < n)%nat.

(** [d] with [k] zeros put in front. *)
Fixpoint lead_zeros (k : nat) (d : uint) : uint :=
  match k with O => d | S k' => D0 (lead_zeros k' d) end.

(** ** The filtered view as the specification words it *)

Fixpoint lower_string (s : string) : string :=
  match s with
  | EmptyString => EmptyString
  | String c s' => String (lower c) (lower_string s')
  end.

(** [term] occurs in [name] as a substring, letter case apart. *)
Definition contains_ci (term name : string) : Prop :=
  exists pre post, lower_string name = pre +:+ lower_string term +:+ post.

(** The same, computed: [p] starts [s], [p] occurs in [s]. *)
Fixpoint starts (p s : string) : bool :=
  match p, s with
  | EmptyString, _ => true
  | String a p', String b s' => Ascii.eqb a b && starts p' s'
  | String _ _, EmptyString => false
  end.

Fixpoint occurs (p s : string) : bool :=
  starts p s
  || match s with
     | EmptyString => false
     | String _ s' => occurs p s'
     end.

Definition contains_cib (term name : string) : bool :=
  occurs (lower_string term) (lower_string name).

(** A filter that is supplied (non-empty) must hold of the row; a filter
    that is not supplied asks nothing. *)
Definition passes
    (category_filter location_filter status_filter : list string)
    (search_term : string) (r : Inv.row) : bool :=
  (negb (truthy category_filter) || isin (Inv.Category r) category_filter)
  && (negb (truthy location_filter) || isin (Inv.Location r) location_filter)
  && (negb (truthy status_filter) || isin (Inv.Status r) status_filter)
  && (negb (truthy_str search_term)
      || contains_cib search_term (Inv.Product_Name r)).

(** A search term none of whose characters is special in the [re] syntax. *)
Definition plain (term : string) : bool :=
  forallb (fun c => negb (special c)) (list_ascii_of_string term).

(** ** Runs of ledger operations *)

(** One operation of the ledger store, with its arguments. *)
Inductive op :=
| Add (now : datetime) (product_data : Inv.row)
| Update (product_id : string) (updates : list item)
| Delete (product_id : string)
| Log (c : log_call).

(** The session after an operation, whether it returned or raised. *)
Definition exec (o : op) (st : session_state) : session_state :=
  match o with
  | Add now product_data => final_state (add_product now product_data st)
  | Update product_id updates =>
      final_state (update_product product_id updates st)
  | Delete product_id => final_state (delete_product product_id st)
  | Log c =>
      final_state
        (log_transaction (call_time c) (call_product_id c)
           (call_product_name c) (call_quantity c) (call_type c) st)
  end.

Definition run (ops : list op) (st : session_state) : session_state :=
  foldl (fun st o => exec o st) st ops.

(** [rows], appended to a table of [k] rows, are numbered by position. *)
Definition numbered (k : nat) (rows : list Txn.row) : Prop :=
  forall i t,
    rows !! i = Some t ->
    Txn.Transaction_ID t = "T" +:+ format_03d (k + i + 1).

(** * The rest of the pages: charts, reports, export, product forms *)

(** ** Sorting and grouping, as pandas does them for the reports *)

(** [x] put in a sorted list, before the first row it may come before. *)
Fixpoint insert_sorted {A} (le : A -> A -> bool) (x : A) (l : list A) : list A :=
  match l with
  | [] => [x]
  | y :: l' => if le x y then x :: y :: l' else y :: insert_sorted le x l'
  end.

(** Sorting by [le]; rows that [le] orders both ways keep their order. *)
Definition stable_sort {A} (le : A -> A -> bool) (l : list A) : list A :=
  foldr (insert_sorted le) [] l.

(** [df.sort_values(c, ascending=False)], labels kept.  pandas does not fix
    the order of rows with equal values; they are left in the frame's order
    here, and nothing below depends on it. *)
Definition sort_values_desc {R} (c : R -> Z) (df : frame R) : labelled R :=
  stable_sort (fun a b => c (snd b) <=? c (snd a)) (with_index df).

(** [df.nlargest(n, c)]: the first [n] rows in descending order of [c]. *)
Definition nlargest {R} (n : nat) (c : R -> Z) (df : frame R) : labelled R :=
  take n (sort_values_desc c df).

(** [df.groupby(c)]: the groups in ascending order of their key, each with
    its rows in the frame's order. *)
Definition groupby {R K} `{EqDecision K} (le : K -> K -> bool) (c : R -> K)
    (df : frame R) : list (K * list R) :=
  map (fun k => (k, filter (fun r => c r = k) df))
      (stable_sort le (remove_dups (map c df))).

(** [.mean()] and [.count()] of a column of a group. *)
Definition series_mean (s : list Qc) : Qc :=
  (series_sumQ s / Qc_of_Z (Z.of_nat (length s)))%Qc.
Definition series_count {A} (s : list A) : nat := length s.

(** ** Dashboard, the "Top 10 Products by Quantity" chart (lines 101-104):
    the frame handed to [px.bar]. *)
Definition show_dashboard_top10 : M (labelled Inv.row) :=
  inv <- get_inventory ;;
  ret (nlargest 10 Inv.Quantity inv).

(** ** Reports (lines 259-265 and 279-299) *)

(** A row of [groupby(...).agg({'Quantity': 'sum', 'Price': 'mean',
    'Product ID': 'count'})], the last column renamed 'Product Count'. *)
Record analysis := {
  Quantity_sum : Z;
  Price_mean : Qc;
  Product_Count : nat
}.

Definition agg_analysis (rows : list Inv.row) : analysis :=
  {| Quantity_sum := series_sum (col Inv.Quantity rows);
     Price_mean := series_mean (col Inv.Price rows);
     Product_Count := series_count (col Inv.Product_ID rows) |}.

(** The "Category Analysis" branch: the frame handed to [st.dataframe]. *)
Definition show_reports_category_analysis : M (list (string * analysis)) :=
  inv <- get_inventory ;;
  let category_analysis :=
    map (fun g => (fst g, agg_analysis (snd g)))
        (groupby String.leb Inv.Category inv) in
  ret category_analysis.


(** The "Transaction History" branch: the sorted frame, and the frame of
    [groupby('Date').size().reset_index(name='Count')] the line chart is
    drawn from. *)
Definition show_reports_transaction_history
  : M (labelled Txn.row * list (datetime * nat)) :=
  trans <- get_transactions ;;
  ret (sort_values_desc Txn.Date trans,
       map (fun g => (fst g, length (snd g))) (groupby Z.leb Txn.Date trans)).

(** The sum of what [f] gives for the elements of a list. *)
Fixpoint Zsum {A} (f : A -> Z) (l : list A) : Z :=
  match l with
  | [] => 0
  | x :: l' => f x + Zsum f l'
  end.

(** ** Export (lines 68-72) *)

(** [base64.b64encode]: each group of three bytes gives four digits of six
    bits, written in the alphabet below; a last group of one or two bytes
    gives two or three digits and is filled up with "=". *)
Definition b64_alphabet : string :=
  "ABCDEFGHIJKLMNOPQRSTUVWXYZabcdefghijklmnopqrstuvwxyz0123456789+/".

Definition b64_digit (n : N) : ascii :=
  default "="%char (String.get (N.to_nat n) b64_alphabet).

Definition b64_digit1 (a : ascii) : N := (N_of_ascii a / 4)%N.
Definition b64_digit2 (a b : ascii) : N :=
  ((N_of_ascii a mod 4) * 16 + N_of_ascii b / 16)%N.
Definition b64_digit3 (b c : ascii) : N :=
  ((N_of_ascii b mod 16) * 4 + N_of_ascii c / 64)%N.
Definition b64_digit4 (c : ascii) : N := (N_of_ascii c mod 64)%N.

Fixpoint b64encode (s : string) : string :=
  match s with
  | EmptyString => EmptyString
  | String a EmptyString =>
      String (b64_digit (b64_digit1 a))
        (String (b64_digit (b64_digit2 a Ascii.zero)) "==")
  | String a (String b EmptyString) =>
      String (b64_digit (b64_digit1 a))
        (String (b64_digit (b64_digit2 a b))
           (String (b64_digit (b64_digit3 b Ascii.zero)) "="))
  | String a (String b (String c rest)) =>
      String (b64_digit (b64_digit1 a))
        (String (b64_digit (b64_digit2 a b))
           (String (b64_digit (b64_digit3 b c))
              (String (b64_digit (b64_digit4 c)) (b64encode rest))))
  end.

(** The quotation mark, and the link [export_to_csv] returns.  [to_csv] is
    [df.to_csv(index=False)], whose text depends on how pandas prints each
    cell; text is ASCII, so that [csv.encode()] and [.decode()] keep it. *)
Definition dq : string := String "034" EmptyString.

Section ExportLink.
Context {R : Type} (to_csv : frame R -> string).

Definition export_to_csv (df : frame R) (filename : string) : string :=
  let csv := to_csv df in
  let b64 := b64encode csv in
  let href :=
    "<a href=" +:+ dq +:+ "data:file/csv;base64," +:+ b64 +:+ dq
    +:+ " download=" +:+ dq +:+ filename +:+ ".csv" +:+ dq
    +:+ ">Download " +:+ filename +:+ "</a>" in
  href.
End ExportLink.

(** Reading base64 back, to state what the link carries: the value of a
    digit, and the bytes of a text of digits with its filling. *)
Definition b64_value (c : ascii) : option N :=
  let n := N_of_ascii c in
  if ((65 <=? n) && (n <=? 90))%N then Some (n - 65)%N
  else if ((97 <=? n) && (n <=? 122))%N then Some (n - 71)%N
  else if ((48 <=? n) && (n <=? 57))%N then Some (n + 4)%N
  else if (n =? 43)%N then Some 62%N
  else if (n =? 47)%N then Some 63%N
  else None.

Definition b64_byte1 (d1 d2 : N) : ascii := ascii_of_N (d1 * 4 + d2 / 16).
Definition b64_byte2 (d2 d3 : N) : ascii :=
  ascii_of_N ((d2 mod 16) * 16 + d3 / 4).
Definition b64_byte3 (d3 d4 : N) : ascii := ascii_of_N ((d3 mod 4) * 64 + d4).

Fixpoint b64decode (s : string) : option string :=
  match s with
  | EmptyString => Some EmptyString
  | String w (String x (String y (String z rest))) =>
      d1 ← b64_value w;
      d2 ← b64_value x;
      if Ascii.eqb z "=" then
        match rest with
        | EmptyString =>
            if Ascii.eqb y "=" then Some (String (b64_byte1 d1 d2) EmptyString)
            else
              d3 ← b64_value y;
              Some (String (b64_byte1 d1 d2)
                      (String (b64_byte2 d2 d3) EmptyString))
        | _ => None
        end
      else
        d3 ← b64_value y;
        d4 ← b64_value z;
        tl ← b64decode rest;
        Some (String (b64_byte1 d1 d2)
                (String (b64_byte2 d2 d3) (String (b64_byte3 d3 d4) tl)))
  | _ => None
  end.

(** ** Product management (lines 115-195)

    Each tab is modelled by what one run of the page does with the values
    its widgets hand over.  What Streamlit itself checks when a widget is
    built (a number input's initial value against its minimum) is not
    modelled. *)

Definition category_options : list string :=
  ["Electronics"; "Accessories"; "Furniture"; "Stationery"; "Other"].
Definition location_options : list string :=
  ["Warehouse A"; "Warehouse B"; "Store Front"].

(** [st.success(message)] and [st.error(message)]. *)
Inductive notice :=
| St_success (message : string)
| St_error (message : string).

(** Tab "Add Product", the form submitted (lines 136-153). *)
Definition add_product_tab (now : datetime)
    (product_id product_name category : string) (quantity : Z) (price : Qc)
    (supplier location : string) (reorder_level : Z) : M notice :=
  let product_data :=
    {| Inv.Product_ID := product_id;
       Inv.Product_Name := product_name;
       Inv.Category := category;
       Inv.Quantity := quantity;
       Inv.Price := price;
       Inv.Supplier := supplier;
       Inv.Location := location;
       Inv.Reorder_Level := reorder_level;
       Inv.Expiry_Date := None;
       Inv.Status := "Active" |} in
  r <- add_product now product_data ;;
  if fst r then ret (St_success (snd r)) else ret (St_error (snd r)).

(** [options.index(x)]: the first position of [x]; [None] stands for the
    ValueError Python raises when [x] is not in the list. *)
Fixpoint list_index (x : string) (options : list string) : option nat :=
  match options with
  | [] => None
  | y :: options' =>
      if String.eqb y x then Some O else S <$> list_index x options'
  end.

(** The values of the edit form's seven widgets. *)
Record edit_values := {
  new_name : string;
  new_category : string;
  new_quantity : Z;
  new_price : Qc;
  new_supplier : string;
  new_location : string;
  new_reorder : Z
}.

(** What a run of the tab "Edit Product" ends with: no form (nothing
    selected), the form with its initial values, the message after "Update
    Product"; or the ValueError of [list.index], which [exn] does not
    have. *)
Inductive edit_view :=
| No_Form
| Form (initial : edit_values)
| Updated (message : string)
| ValueError.

(** Tab "Edit Product" (lines 155-188): [product_id] is what the select box
    returns ([None] when it has no option), [update_btn] the values of the
    form when "Update Product" was pressed. *)
Definition edit_product_tab (product_id : option string)
    (update_btn : option edit_values) : M edit_view :=
  match product_id with
  | None => ret No_Form
  | Some product_id =>
      if truthy_str product_id then
        inv <- get_inventory ;;
        match bool_index inv (series_eq (col Inv.Product_ID inv) product_id) with
        | [] => raise IndexError
        | (_, product) :: _ =>
            match list_index (Inv.Category product) category_options,
                  list_index (Inv.Location product) location_options with
            | Some _, Some _ =>
                match update_btn with
                | None =>
                    ret (Form {| new_name := Inv.Product_Name product;
                                 new_category := Inv.Category product;
                                 new_quantity := Inv.Quantity product;
                                 new_price := Inv.Price product;
                                 new_supplier := Inv.Supplier product;
                                 new_location := Inv.Location product;
                                 new_reorder := Inv.Reorder_Level product |})
                | Some v =>
                    let updates :=
                      [ Set_Product_Name (new_name v);
                        Set_Category (new_category v);
                        Set_Quantity (new_quantity v);
                        Set_Price (new_price v);
                        Set_Supplier (new_supplier v);
                        Set_Location (new_location v);
                        Set_Reorder_Level (new_reorder v) ] in
                    message <- update_product product_id updates ;;
                    ret (Updated message)
                end
            | _, _ => ret ValueError
            end
        end
      else ret No_Form
  end.

(** Tab "Delete Product" (lines 190-195), the button pressed.  With no
    option the select box returns [None], and [delete_product(None)] keeps
    every row: no Product ID equals [None]. *)
Definition delete_product_tab (del_product_id : option string) : M string :=
  match del_product_id with
  | Some product_id => delete_product product_id
  | None =>
      inv <- get_inventory ;;
      set_inventory
        (reset_index
           (bool_index inv (map (fun _ => true) (col Inv.Product_ID inv)))) ;;
      ret "Product deleted successfully"
  end.

(** One use of the product management page, and the values its widgets
    can hand over in a session: a select box returns one of its options, a
    number input with [min_value=0] a number that is not negative. *)
Inductive ui_event :=
| Add_Submitted (now : datetime) (product_id product_name category : string)
    (quantity : Z) (price : Qc) (supplier location : string)
    (reorder_level : Z)
| Edit_Submitted (product_id : string) (v : edit_values)
| Delete_Clicked (del_product_id : option string).

Definition widgets_allow (st : session_state) (e : ui_event) : Prop :=
  match e with
  | Add_Submitted _ _ _ category quantity price _ location reorder_level =>
      category ∈ category_options /\ location ∈ location_options
      /\ 0 <= quantity /\ (0 <= price)%Qc /\ 0 <= reorder_level
  | Edit_Submitted product_id v =>
      product_id ∈ col Inv.Product_ID (inventory st)
      /\ new_category v ∈ category_options
      /\ new_location v ∈ location_options
      /\ 0 <= new_quantity v /\ (0 <= new_price v)%Qc /\ 0 <= new_reorder v
  | Delete_Clicked (Some product_id) =>
      product_id ∈ col Inv.Product_ID (inventory st)
  | Delete_Clicked None => inventory st = []
  end.

Definition ui_step (e : ui_event) : M unit :=
  match e with
  | Add_Submitted now product_id product_name category quantity price
      supplier location reorder_level =>
      add_product_tab now product_id product_name category quantity price
        supplier location reorder_level ;;
      ret tt
  | Edit_Submitted product_id v =>
      edit_product_tab (Some product_id) (Some v) ;; ret tt
  | Delete_Clicked del_product_id =>
      delete_product_tab del_product_id ;; ret tt
  end.

(** The sessions the page can bring about, from the seeded one. *)
Inductive ui_reachable : session_state -> Prop :=
| ui_seed now now' : ui_reachable (seed now now')
| ui_next st e :
    ui_reachable st -> widgets_allow st e ->
    ui_reachable (final_state (ui_step e st)).

(** A row as the forms make them. *)
Definition form_row (r : Inv.row) : Prop :=
  Inv.Category r ∈ category_options /\ Inv.Location r ∈ location_options
  /\ 0 <= Inv.Quantity r /\ (0 <= Inv.Price r)%Qc /\ 0 <= Inv.Reorder_Level r
  /\ Inv.Expiry_Date r = None /\ Inv.Status r = "Active".

(** What the page keeps true of a session. *)
Definition ui_invariant (st : session_state) : Prop :=
  NoDup (col Inv.Product_ID (inventory st))
  /\ Forall form_row (inventory st)
  /\ numbered 0 (transactions st).
(** * Properties *)

(** ** Membership tests and masks *)

Lemma isin_true x l : isin x l = true <-> x ∈ l.
Proof.
  unfold isin. rewrite existsb_exists, list_elem_of_In. split.
  - intros (y & Hy & E). apply String.eqb_eq in E. by subst.
  - intros H. exists x. split; [done | apply String.eqb_refl].
Qed.

Lemma isin_false x l : isin x l = false <-> x ∉ l.
Proof.
  rewrite <- isin_true. destruct (isin x l); split; congruence.
Qed.

Lemma zip_with_map_same {A B C D} (f : B -> C -> D) (g : A -> B) (h : A -> C)
    (l : list A) :
  zip_with f (map g l) (map h l) = map (fun x => f (g x) (h x)) l.
Proof. induction l as [|x l IH]; simpl; [done | by rewrite IH]. Qed.

Section Select.
Context {R : Type}.
Implicit Types (l : list R) (f : R -> bool).

Lemma with_index_label_from l : with_index l = label_from 0 l.
Proof. reflexivity. Qed.

Lemma label_from_cons k x l :
  label_from k (x :: l) = (k, x) :: label_from (S k) l.
Proof. reflexivity. Qed.

Lemma elem_of_label_from k l i r :
  (i, r) ∈ label_from k l <-> (k <= i)%nat /\ l !! (i - k)%nat = Some r.
Proof.
  revert k. induction l as [|x l IH]; intros k.
  - unfold label_from; simpl. rewrite elem_of_nil.
    split; [done | intros [_ Hl]; by rewrite lookup_nil in Hl].
  - rewrite label_from_cons, elem_of_cons, IH. split.
    + intros [E | [Hle Hl]].
      * injection E as ? ?; subst. split; [lia|]. by rewrite Nat.sub_diag.
      * split; [lia|]. replace (i - k)%nat with (S (i - S k)) by lia. done.
    + intros [Hle Hl]. destruct (decide (i = k)) as [-> | Hne].
      * left. rewrite Nat.sub_diag in Hl. simpl in Hl. congruence.
      * right. split; [lia|].
        replace (i - k)%nat with (S (i - S k)) in Hl by lia. done.
Qed.

Lemma elem_of_with_index l i r : (i, r) ∈ with_index l <-> l !! i = Some r.
Proof.
  rewrite with_index_label_from, elem_of_label_from, Nat.sub_0_r.
  split; [tauto | split; [lia | done]].
Qed.

Lemma reset_index_label_from k l : reset_index (label_from k l) = l.
Proof.
  revert k. induction l as [|x l IH]; intros k; [done|].
  rewrite label_from_cons. simpl. f_equal. apply IH.
Qed.

(** Selecting with a mask computed row by row is filtering. *)
Lemma select_lcol_filter f (rows : labelled R) :
  select (map (fun ir => f (snd ir)) rows) rows
  = filter (fun ir => f (snd ir) = true) rows.
Proof.
  induction rows as [|[i r] rows IH]; [done|].
  rewrite filter_cons. cbn [map select snd]. rewrite IH.
  destruct (f r); [by rewrite decide_True | by rewrite decide_False].
Qed.

Lemma map_label_from (f : R -> bool) k l :
  map f l = map (fun ir => f (snd ir)) (label_from k l).
Proof.
  revert k. induction l as [|x l IH]; intros k; [done|].
  rewrite label_from_cons. simpl. f_equal. apply IH.
Qed.

Lemma bool_index_filter f l :
  bool_index l (map f l) = filter (fun ir => f (snd ir) = true) (with_index l).
Proof.
  unfold bool_index. rewrite with_index_label_from.
  rewrite (map_label_from f 0 l). apply select_lcol_filter.
Qed.

End Select.

(** ** C1: adding a product whose identifier is new *)

Lemma add_product_run now P st :
  add_product now P st
  = if isin (Inv.Product_ID P) (col Inv.Product_ID (inventory st))
    then Returned (false, "Product ID already exists") st
    else Returned (true, "Product added successfully")
           {| inventory := inventory st ++ [P];
              transactions :=
                transactions st ++
                [ logged_row (length (transactions st) + 1)
                    (Build_log_call now (Inv.Product_ID P)
                       (Inv.Product_Name P) (Inv.Quantity P) "Purchase") ] |}.
Proof.
  unfold add_product, bind, get_inventory. by destruct (isin _ _).
Qed.

(** C1. When the candidate's Product ID occurs in no row of Inventory,
    [add_product] returns [(True, "Product added successfully")]; Inventory
    is the old frame with the candidate appended as its last row, and
    Transactions is the old frame with one row appended, a 'Purchase' of the
    candidate's Product ID, Product Name and Quantity.  All earlier rows of
    both tables are as they were. *)
Theorem add_product_fresh (now : datetime) (P : Inv.row) (st : session_state) :
  Inv.Product_ID P ∉ col Inv.Product_ID (inventory st) ->
  add_product now P st
  = Returned (true, "Product added successfully")
      {| inventory := inventory st ++ [P];
         transactions :=
           transactions st ++
           [ {| Txn.Transaction_ID :=
                  "T" +:+ format_03d (length (transactions st) + 1);
                Txn.Product_ID := Inv.Product_ID P;
                Txn.Product_Name := Inv.Product_Name P;
                Txn.Quantity := Inv.Quantity P;
                Txn.Transaction_Type := "Purchase";
                Txn.Date := now |} ] |}.
Proof.
  intros Hfresh. apply isin_false in Hfresh.
  unfold add_product, bind, get_inventory. rewrite Hfresh. reflexivity.
Qed.

Lemma add_product_fresh_witness :
  add_product 100 desk (seed 98 99)
  = Returned (true, "Product added successfully")
      {| inventory := seed_inventory ++ [desk];
         transactions :=
           seed_transactions 98 99 ++
           [ Txn.mk "T003" "P004" "Desk" 7 "Purchase" 100 ] |}.
Proof.
  apply (add_product_fresh 100 desk (seed 98 99)).
  apply isin_false. vm_compute. reflexivity.
Defined.

(** ** C2: adding a product whose identifier is taken *)

Lemma add_product_ids now P st :
  col Inv.Product_ID (inventory (final_state (add_product now P st)))
  = if isin (Inv.Product_ID P) (col Inv.Product_ID (inventory st))
    then col Inv.Product_ID (inventory st)
    else col Inv.Product_ID (inventory st) ++ [Inv.Product_ID P].
Proof.
  unfold add_product, bind, get_inventory.
  destruct (isin _ _); simpl; [done|].
  unfold col, concat_ignore_index. by rewrite map_app.
Qed.

Lemma add_product_returns now P st :
  exists r st', add_product now P st = Returned r st'.
Proof.
  unfold add_product, bind, get_inventory. destruct (isin _ _); simpl; eauto.
Qed.

Lemma add_product_keeps_unique now P st :
  NoDup (col Inv.Product_ID (inventory st)) ->
  NoDup (col Inv.Product_ID (inventory (final_state (add_product now P st)))).
Proof.
  intros Hnd. rewrite add_product_ids.
  destruct (isin _ _) eqn:E; [done|].
  apply isin_false in E. apply NoDup_app. split_and!; [done | | apply NoDup_singleton].
  intros x Hx Hx'. apply list_elem_of_singleton in Hx'. by subst.
Qed.

Lemma add_products_keep_unique calls st :
  NoDup (col Inv.Product_ID (inventory st)) ->
  NoDup (col Inv.Product_ID (inventory (final_state (add_products calls st)))).
Proof.
  revert st. induction calls as [|[now P] calls IH]; intros st Hnd; [done|].
  pose proof (add_product_keeps_unique now P st Hnd) as H1.
  destruct (add_product_returns now P st) as (r & st' & E).
  simpl. unfold bind at 1. rewrite E in *. simpl in H1.
  specialize (IH st' H1). unfold bind.
  destruct (add_products calls st'); simpl in *; done.
Qed.

Lemma seed_ids_unique now now' : NoDup (col Inv.Product_ID (inventory (seed now now'))).
Proof. apply (bool_decide_unpack _). vm_compute. exact I. Qed.

(** C2. When the candidate's Product ID occurs in a row of Inventory,
    [add_product] returns [(False, "Product ID already exists")] and the
    session (Inventory and Transactions) is exactly what it was.  Hence a
    run of [add_product] calls started from an Inventory without repeated
    Product IDs, the seeded one in particular, never produces one with a
    repeated Product ID. *)
Theorem add_product_duplicate :
  (forall now P st,
      Inv.Product_ID P ∈ col Inv.Product_ID (inventory st) ->
      add_product now P st = Returned (false, "Product ID already exists") st)
  /\ (forall calls st,
         NoDup (col Inv.Product_ID (inventory st)) ->
         NoDup (col Inv.Product_ID
                  (inventory (final_state (add_products calls st)))))
  /\ (forall calls now now',
         NoDup (col Inv.Product_ID
                  (inventory (final_state (add_products calls (seed now now')))))).
Proof.
  split_and!.
  - intros now P st Hin. apply isin_true in Hin.
    unfold add_product, bind, get_inventory. by rewrite Hin.
  - apply add_products_keep_unique.
  - intros calls now now'. apply add_products_keep_unique, seed_ids_unique.
Qed.

Lemma add_product_duplicate_witness :
  add_product 100 (Inv.mk "P002" "Trackball" "Accessories" 3 (Qc_of_Z 900)
                     "PeriTech" "Store Front" 1 None "Active") (seed 98 99)
  = Returned (false, "Product ID already exists") (seed 98 99)
  /\ NoDup (col Inv.Product_ID
              (inventory (final_state
                 (add_products [(100, desk); (101, desk)] (seed 98 99))))).
Proof.
  split.
  - apply (proj1 add_product_duplicate).
    apply (bool_decide_unpack _). vm_compute. exact I.
  - apply (proj1 (proj2 add_product_duplicate)).
    apply (bool_decide_unpack _). vm_compute. exact I.
Defined.

(** ** [update_product]: C3, C6 and C10 *)

Lemma series_eq_col (inv : list Inv.row) pid :
  series_eq (col Inv.Product_ID inv) pid
  = map (fun r => String.eqb (Inv.Product_ID r) pid) inv.
Proof. unfold series_eq, col. apply map_map. Qed.

(** The first label of the matching rows is the position of the first
    matching row. *)
Lemma first_label k (inv : list Inv.row) pid :
  head (index (select (map (fun r => String.eqb (Inv.Product_ID r) pid) inv)
                      (label_from k inv)))
  = (fun ir => (k + fst ir)%nat)
      <$> list_find (fun r => Inv.Product_ID r = pid) inv.
Proof.
  revert k. induction inv as [|r inv IH]; intros k; [done|].
  rewrite label_from_cons. cbn [map select list_find].
  destruct (String.eqb_spec (Inv.Product_ID r) pid) as [E | E].
  - rewrite decide_True by done. simpl. f_equal. lia.
  - rewrite decide_False by done. rewrite IH.
    fold (list_find (fun r => Inv.Product_ID r = pid) inv).
    destruct (list_find _ inv) as [[i x]|]; simpl; [f_equal; lia | done].
Qed.

(** The loop of [update_product] rewrites the row labelled [idx] and
    nothing else. *)
Lemma for_each_assign idx updates st :
  for_each updates (fun kv =>
      inv' <- get_inventory ;; set_inventory (at_set idx (assign kv) inv')) st
  = Returned tt {| inventory := alter (apply_updates updates) idx (inventory st);
                   transactions := transactions st |}.
Proof.
  revert st. induction updates as [|kv updates IH]; intros [inv trans].
  - simpl. unfold ret. f_equal. f_equal. symmetry. by apply list_alter_id.
  - cbn [for_each]. unfold bind at 1. unfold bind at 1.
    unfold get_inventory, set_inventory, at_set. cbn [inventory transactions].
    rewrite IH. cbn [inventory transactions]. do 2 f_equal.
    apply list_alter_alter_eq.
Qed.

(** [update_product], run: it raises when no row matches and otherwise
    rewrites the first matching row. *)
Lemma update_product_run pid updates st :
  update_product pid updates st
  = match list_find (fun r => Inv.Product_ID r = pid) (inventory st) with
    | None => Raised IndexError st
    | Some (idx, _) =>
        Returned "Product updated successfully"
          {| inventory := alter (apply_updates updates) idx (inventory st);
             transactions := transactions st |}
    end.
Proof.
  unfold update_product, bind at 1, get_inventory.
  pose proof (first_label 0 (inventory st) pid) as H.
  unfold bool_index. rewrite series_eq_col, with_index_label_from.
  destruct (index _) as [|idx rest]; simpl in H;
    destruct (list_find _ (inventory st)) as [[i x]|]; simplify_eq/=; [done|].
  unfold bind at 1. by rewrite for_each_assign.
Qed.

Lemma list_find_ids_None pid (inv : list Inv.row) :
  pid ∉ col Inv.Product_ID inv ->
  list_find (fun r => Inv.Product_ID r = pid) inv = None.
Proof.
  intros Hnot. apply list_find_None, Forall_forall. intros r Hr E.
  apply Hnot. unfold col. apply list_elem_of_fmap. by exists r.
Qed.

Lemma list_find_ids_Some pid (inv : list Inv.row) :
  pid ∈ col Inv.Product_ID inv ->
  exists idx r, list_find (fun r => Inv.Product_ID r = pid) inv = Some (idx, r).
Proof.
  intros Hin. apply list_elem_of_fmap in Hin as (r & E & Hr).
  destruct (list_find_elem_of (fun r => Inv.Product_ID r = pid) inv r)
    as [[idx x] Hx]; [done | done | by exists idx, x].
Qed.

(** C3, as the code has it.  When no row of Inventory has the given Product
    ID, [update_product] returns nothing: the lookup [.index[0]] raises
    IndexError before any cell is written, and Inventory and Transactions
    are what they were. *)
Theorem update_product_not_found pid updates st :
  pid ∉ col Inv.Product_ID (inventory st) ->
  update_product pid updates st = Raised IndexError st.
Proof.
  intros Hnot. rewrite update_product_run. by rewrite list_find_ids_None.
Qed.

Lemma update_product_not_found_witness :
  update_product "P999" [Set_Quantity 5] (seed 98 99) = Raised IndexError (seed 98 99).
Proof.
  apply update_product_not_found.
  apply (bool_decide_unpack _). vm_compute. exact I.
Defined.

(** C3, as the claim words it, fails: on the seeded session, updating the
    absent identifier "P999" does not return any value, failure or other. *)
Lemma update_product_not_found_no_value :
  ("P999" ∉ col Inv.Product_ID (inventory (seed 98 99)))
  /\ ~ (exists (v : string) (st' : session_state),
          update_product "P999" [Set_Quantity 5] (seed 98 99) = Returned v st').
Proof.
  split; [apply (bool_decide_unpack _); vm_compute; exact I|].
  intros (v & st' & H). vm_compute in H. discriminate H.
Qed.



Lemma cell_assign kv c r :
  cell c (assign kv r) = if decide (key kv = c) then new_value kv else cell c r.
Proof. destruct r, kv, c; reflexivity. Qed.

Lemma cell_apply_updates updates c r :
  cell c (apply_updates updates r) = default (cell c r) (dict_get c updates).
Proof.
  revert r. induction updates as [|kv updates IH]; intros r; [done|].
  change (apply_updates (kv :: updates) r)
    with (apply_updates updates (assign kv r)).
  rewrite IH, cell_assign. simpl.
  destruct (dict_get c updates); [done|]. by destruct (decide (key kv = c)).
Qed.



(** ** C7: [delete_product] *)

Lemma delete_frame k (inv : list Inv.row) pid :
  reset_index
    (select (map (fun r => negb (String.eqb (Inv.Product_ID r) pid)) inv)
            (label_from k inv))
  = filter (fun r => Inv.Product_ID r <> pid) inv.
Proof.
  revert k. induction inv as [|r inv IH]; intros k; [done|].
  rewrite label_from_cons, filter_cons. cbn [map select].
  destruct (String.eqb_spec (Inv.Product_ID r) pid) as [E | E]; simpl.
  - rewrite decide_False by (intros H; by apply H). apply IH.
  - rewrite decide_True by done. f_equal. apply IH.
Qed.

Lemma delete_product_run pid st :
  delete_product pid st
  = Returned "Product deleted successfully"
      {| inventory := filter (fun r => Inv.Product_ID r <> pid) (inventory st);
         transactions := transactions st |}.
Proof.
  unfold delete_product, bind, get_inventory, set_inventory, ret, bool_index.
  unfold series_ne, col. rewrite map_map, with_index_label_from.
  by rewrite delete_frame.
Qed.

Lemma filter_idem {A} (P : A -> Prop) `{forall x, Decision (P x)} (l : list A) :
  filter P (filter P l) = filter P l.
Proof.
  induction l as [|x l IH]; [done|]. rewrite filter_cons.
  destruct (decide (P x)); [|done].
  rewrite filter_cons, decide_True by done. by rewrite IH.
Qed.

(** C7. [delete_product] always returns "Product deleted successfully",
    whether or not a row matches; Inventory becomes the rows whose Product ID
    differs from the given one, in their order, and Transactions is kept.
    Run a second time right after, it returns the same message and leaves
    the session as the first call left it. *)
Theorem delete_product_idempotent pid st :
  let st1 :=
    {| inventory := filter (fun r => Inv.Product_ID r <> pid) (inventory st);
       transactions := transactions st |} in
  delete_product pid st = Returned "Product deleted successfully" st1
  /\ (pid ∉ col Inv.Product_ID (inventory st1))
  /\ delete_product pid st1 = Returned "Product deleted successfully" st1.
Proof.
  intros st1. split_and!.
  - apply delete_product_run.
  - unfold st1, col. cbn [inventory]. intros (r & E & Hr)%list_elem_of_fmap.
    apply list_elem_of_filter in Hr as [Hne _]. by apply Hne.
  - rewrite delete_product_run. unfold st1. cbn [inventory transactions].
    by rewrite filter_idem.
Qed.

Lemma delete_product_idempotent_witness :
  delete_product "P002" (seed 98 99)
  = Returned "Product deleted successfully"
      {| inventory :=
           filter (fun r => Inv.Product_ID r <> "P002") seed_inventory;
         transactions := seed_transactions 98 99 |}
  /\ delete_product "P002"
       {| inventory :=
            filter (fun r => Inv.Product_ID r <> "P002") seed_inventory;
          transactions := seed_transactions 98 99 |}
     = Returned "Product deleted successfully"
         {| inventory :=
              filter (fun r => Inv.Product_ID r <> "P002") seed_inventory;
            transactions := seed_transactions 98 99 |}.
Proof.
  destruct (delete_product_idempotent "P002" (seed 98 99)) as (H1 & _ & H2).
  split; [exact H1 | exact H2].
Defined.

(** ** C5 and C8: the low-stock predicate and the dashboard metrics *)

Lemma series_le_cols (inv : list Inv.row) :
  series_le (col Inv.Quantity inv) (col Inv.Reorder_Level inv)
  = map (fun r => Inv.Quantity r <=? Inv.Reorder_Level r) inv.
Proof. apply zip_with_map_same. Qed.

Lemma low_stock_rows (inv : list Inv.row) :
  bool_index inv (series_le (col Inv.Quantity inv) (col Inv.Reorder_Level inv))
  = filter (fun ir => low_stock (snd ir)) (with_index inv).
Proof.
  rewrite series_le_cols, bool_index_filter.
  apply list_filter_iff. intros [i r]. unfold low_stock. simpl.
  apply Z.leb_le.
Qed.



Lemma series_sumQ_acc (s : list Qc) (a : Qc) :
  fold_left Qcplus s a = (a + fold_left Qcplus s 0)%Qc.
Proof.
  revert a. induction s as [|x s IH]; intros a; simpl.
  - ring.
  - rewrite (IH (a + x)%Qc), (IH (0 + x)%Qc). ring.
Qed.

Lemma series_sumQ_mul (inv : list Inv.row) :
  series_sumQ (series_mul (col Inv.Quantity inv) (col Inv.Price inv))
  = sumQ_over (fun r => (Qc_of_Z (Inv.Quantity r) * Inv.Price r)%Qc) inv.
Proof.
  unfold series_sumQ, series_mul. rewrite zip_with_map_same.
  induction inv as [|r inv IH]; [done|].
  cbn [map fold_left sumQ_over]. rewrite series_sumQ_acc, IH. ring.
Qed.

Lemma show_dashboard_run st :
  exists d, show_dashboard st = Returned d st
    /\ Total_Products d = length (inventory st)
    /\ Total_Quantity d = series_sum (col Inv.Quantity (inventory st))
    /\ Total_Value d
       = series_sumQ (series_mul (col Inv.Quantity (inventory st))
                                 (col Inv.Price (inventory st)))
    /\ low_stock_items d
       = filter (fun ir => low_stock (snd ir)) (with_index (inventory st))
    /\ Low_Stock_Items d = length (low_stock_items d)
    /\ Low_Stock_Alert d
       = match low_stock_items d with
         | [] => None
         | _ => Some (map alert_columns (low_stock_items d))
         end.
Proof.
  eexists. unfold show_dashboard, bind, get_inventory, ret.
  split; [reflexivity|]. cbn [Total_Products Total_Quantity Total_Value
    low_stock_items Low_Stock_Items Low_Stock_Alert].
  rewrite low_stock_rows. split_and!; try reflexivity.
  destruct (filter _ _); [done|]. f_equal. apply map_ext. by intros [i r].
Qed.

(** C5. On every snapshot, the frame the dashboard alert is built from and
    the frame of the Low Stock Report are the same, namely the rows of
    Inventory (with their labels, in order) whose Quantity is at most their
    Reorder Level; the dashboard's Low Stock Items metric is their number and
    the alert table lists exactly them.  So a row is selected if and only if
    Quantity <= Reorder Level: one with Quantity = Reorder Level is, one
    with Quantity = Reorder Level + 1 is not. *)
Theorem low_stock_classification st :
  exists d,
    show_dashboard st = Returned d st
    /\ show_reports_low_stock st = Returned (low_stock_items d) st
    /\ low_stock_items d
       = filter (fun ir => Inv.Quantity (snd ir) <= Inv.Reorder_Level (snd ir))
                (with_index (inventory st))
    /\ Low_Stock_Items d = length (low_stock_items d)
    /\ default [] (Low_Stock_Alert d) = map alert_columns (low_stock_items d)
    /\ (forall i r,
          (i, r) ∈ low_stock_items d
          <-> inventory st !! i = Some r
              /\ Inv.Quantity r <= Inv.Reorder_Level r)
    /\ (forall i r,
          inventory st !! i = Some r ->
          (Inv.Quantity r = Inv.Reorder_Level r -> (i, r) ∈ low_stock_items d)
          /\ (Inv.Quantity r = Inv.Reorder_Level r + 1 ->
              (i, r) ∉ low_stock_items d)).
Proof.
  destruct (show_dashboard_run st) as (d & Hrun & _ & _ & _ & Hlow & Hn & Ha).
  assert (Hmem : forall i r,
             (i, r) ∈ low_stock_items d
             <-> inventory st !! i = Some r
                 /\ Inv.Quantity r <= Inv.Reorder_Level r).
  { intros i r. rewrite Hlow, list_elem_of_filter, elem_of_with_index.
    unfold low_stock. simpl. tauto. }
  exists d. split_and!; try done.
  - unfold show_reports_low_stock, bind, get_inventory, ret.
    by rewrite low_stock_rows, Hlow.
  - rewrite Ha. by destruct (low_stock_items d).
  - intros i r Hr. split; intros Hq.
    + apply Hmem. split; [done | lia].
    + intros Hin%Hmem. lia.
Qed.

Lemma low_stock_classification_witness :
  exists d,
    show_dashboard (seed 98 99) = Returned d (seed 98 99)
    /\ show_reports_low_stock (seed 98 99) = Returned (low_stock_items d) (seed 98 99)
    /\ Low_Stock_Items d = length (low_stock_items d)
    /\ ((1%nat, Inv.mk "P002" "Mouse" "Accessories" 200 (Qc_of_Z 500)
                  "PeriTech" "Warehouse B" 50 None "Active")
         ∉ low_stock_items d).
Proof.
  destruct (low_stock_classification (seed 98 99))
    as (d & Hrun & Hrep & _ & Hn & _ & Hmem & _).
  exists d. split_and!; try done.
  intros Hin%Hmem. simpl in Hin. lia.
Defined.




(** The seeded three products: 50*80000 + 200*500 + 150*1200 = 4280000. *)
Example dashboard_seed now now' :
  exists d,
    show_dashboard (seed now now') = Returned d (seed now now')
    /\ Total_Products d = 3%nat /\ Total_Quantity d = 400
    /\ Low_Stock_Items d = 0%nat /\ Total_Value d = Qc_of_Z 4280000.
Proof.
  destruct (show_dashboard_run (seed now now'))
    as (d & Hrun & Hn & Hq & Hv & Hlow & Hl & _).
  exists d. split_and!; try done.
  - by rewrite Hl, Hlow.
  - rewrite Hv, series_sumQ_mul.
    cbn [seed inventory seed_inventory sumQ_over Inv.Quantity Inv.Price].
    rewrite <- !Z2Qc_inj_mul, Qcplus_0_r, <- !Z2Qc_inj_add. reflexivity.
Qed.

(** The scenario of the specification: after "P001" is given Quantity 5,
    Laptop is the one low-stock row. *)
Example dashboard_after_update now now' :
  exists st' d,
    update_product "P001" [Set_Quantity 5] (seed now now')
    = Returned "Product updated successfully" st'
    /\ show_dashboard st' = Returned d st'
    /\ Low_Stock_Items d = 1%nat
    /\ map (fun ir => Inv.Product_Name (snd ir)) (low_stock_items d) = ["Laptop"].
Proof.
  eexists. eexists. split; [reflexivity|]. split; [reflexivity|].
  split; reflexivity.
Qed.

(** ** C4: transaction identifiers *)

Lemma uint_of_string_zeros k s d :
  NilEmpty.uint_of_string s = Some d ->
  NilEmpty.uint_of_string (zeros k +:+ s) = Some (lead_zeros k d).
Proof. intros H. induction k as [|k IH]; simpl; [done | by rewrite IH]. Qed.

Lemma of_uint_lead_zeros k d : Nat.of_uint (lead_zeros k d) = Nat.of_uint d.
Proof. induction k as [|k IH]; [done | exact IH]. Qed.

(** Reading back the number printed by [format_03d]. *)
Lemma seq_number_format n : seq_number ("T" +:+ format_03d n) = Some n.
Proof.
  change ("T" +:+ format_03d n) with (String "T" (format_03d n)).
  unfold seq_number. cbv iota beta. unfold format_03d. cbv zeta.
  rewrite (uint_of_string_zeros _ _ (Nat.to_uint n)) by apply NilEmpty.usu.
  cbn [fmap option_fmap option_map].
  by rewrite of_uint_lead_zeros, DecimalNat.Unsigned.of_to.
Qed.

Lemma log_transaction_run now pid name qty ty st :
  log_transaction now pid name qty ty st
  = Returned tt
      {| inventory := inventory st;
         transactions :=
           transactions st ++
           [ logged_row (length (transactions st) + 1)
               (Build_log_call now pid name qty ty) ] |}.
Proof. reflexivity. Qed.






Example format_03d_widths :
  format_03d 7 = "007" /\ format_03d 45 = "045"
  /\ format_03d 999 = "999" /\ format_03d 1000 = "1000".
Proof. repeat split; reflexivity. Qed.

(** The same numbering when other ledger operations come in between: no
    operation removes a row of Transactions, and every row appended, by
    [log_transaction] itself or through [add_product], is numbered by its
    position. *)
Lemma numbered_nil k : numbered k [].
Proof. intros i t H. by rewrite lookup_nil in H. Qed.

Lemma numbered_singleton k c : numbered k [logged_row (k + 1) c].
Proof.
  intros [|i] t H; simplify_eq/=. by rewrite Nat.add_0_r.
Qed.

Lemma numbered_app k rows rows' :
  numbered k rows -> numbered (k + length rows) rows' ->
  numbered k (rows ++ rows').
Proof.
  intros H1 H2 i t Hi. apply lookup_app_Some in Hi as [Hi | [Hle Hi]].
  - by apply H1.
  - rewrite (H2 _ _ Hi). do 2 f_equal. lia.
Qed.

Lemma exec_appends o st :
  exists extra,
    transactions (exec o st) = transactions st ++ extra
    /\ numbered (length (transactions st)) extra.
Proof.
  destruct o as [now P | pid updates | pid | c]; cbn [exec].
  - rewrite add_product_run.
    destruct (isin _ _); cbn [final_state transactions].
    + exists []. split; [by rewrite app_nil_r | apply numbered_nil].
    + eexists. split; [reflexivity | apply numbered_singleton].
  - exists []. rewrite app_nil_r. split; [|apply numbered_nil].
    rewrite update_product_run. by destruct (list_find _ _) as [[idx r]|].
  - exists []. rewrite app_nil_r. split; [|apply numbered_nil].
    by rewrite delete_product_run.
  - rewrite log_transaction_run. cbn [final_state transactions].
    eexists. split; [reflexivity | apply numbered_singleton].
Qed.

Lemma run_appends ops st :
  exists new,
    transactions (run ops st) = transactions st ++ new
    /\ numbered (length (transactions st)) new.
Proof.
  revert st. induction ops as [|o ops IH]; intros st.
  - exists []. split; [by rewrite app_nil_r | apply numbered_nil].
  - destruct (exec_appends o st) as (extra & E & Hextra).
    destruct (IH (exec o st)) as (new & E' & Hnew).
    exists (extra ++ new). cbn [run foldl]. fold (run ops (exec o st)).
    rewrite E', E, <- app_assoc. split; [done|].
    apply numbered_app; [done|]. by rewrite E, length_app in Hnew.
Qed.

Lemma numbered_ids k rows :
  numbered k rows ->
  NoDup (map Txn.Transaction_ID rows)
  /\ (forall i j ti tj,
        rows !! i = Some ti -> rows !! j = Some tj -> (i < j)%nat ->
        id_lt (Txn.Transaction_ID ti) (Txn.Transaction_ID tj)).
Proof.
  intros Hnum.
  assert (Hseq : forall i t, rows !! i = Some t ->
                   seq_number (Txn.Transaction_ID t) = Some (k + i + 1)%nat).
  { intros i t Ht. rewrite (Hnum i t Ht). apply seq_number_format. }
  split.
  - apply NoDup_alt. intros i j x Hi Hj.
    apply list_lookup_fmap_Some in Hi as (ti & -> & Hti).
    apply list_lookup_fmap_Some in Hj as (tj & E & Htj).
    pose proof (Hseq i ti Hti) as Hsi. pose proof (Hseq j tj Htj) as Hsj.
    rewrite <- E, Hsi in Hsj. simplify_eq. lia.
  - intros i j ti tj Hti Htj Hlt.
    exists (k + i + 1)%nat, (k + j + 1)%nat.
    split_and!; [by apply Hseq | by apply Hseq | lia].
Qed.

Lemma ledger_run_ids ops st :
  exists new,
    transactions (run ops st) = transactions st ++ new
    /\ numbered (length (transactions st)) new
    /\ NoDup (map Txn.Transaction_ID new)
    /\ (forall i j ti tj,
          new !! i = Some ti -> new !! j = Some tj -> (i < j)%nat ->
          id_lt (Txn.Transaction_ID ti) (Txn.Transaction_ID tj)).
Proof.
  destruct (run_appends ops st) as (new & E & Hnum).
  destruct (numbered_ids _ _ Hnum) as [Hnd Hlt]. by exists new.
Qed.

(** The identifiers have three digits up to T999 and more from T1000 on, so
    that, compared as text, T1000 comes before T999: the order in which the
    identifiers grow is that of their numbers. *)
Example id_text_order_after_999 :
  String.compare ("T" +:+ format_03d 1000) ("T" +:+ format_03d 999) = Lt
  /\ id_lt ("T" +:+ format_03d 999) ("T" +:+ format_03d 1000).
Proof.
  split; [reflexivity|].
  exists 999%nat, 1000%nat. rewrite !seq_number_format.
  split_and!; [done | done | lia].
Qed.

(** ** C9: the filtered view *)

Lemma starts_spec p s : starts p s = true <-> exists post, s = p +:+ post.
Proof.
  revert s. induction p as [|a p IH]; intros s; simpl.
  - split; [intros _; by exists s | done].
  - destruct s as [|b s].
    + split; [done | intros (post & H); discriminate H].
    + rewrite andb_true_iff, IH. split.
      * intros (E%Ascii.eqb_eq & post & ->). subst. by exists post.
      * intros (post & H). injection H as -> ->.
        split; [apply Ascii.eqb_refl | by exists post].
Qed.

Lemma occurs_spec p s :
  occurs p s = true <-> exists pre post, s = pre +:+ p +:+ post.
Proof.
  induction s as [|b s IH]; simpl.
  - rewrite orb_false_r, starts_spec. split.
    + intros (post & H). by exists EmptyString, post.
    + intros ([|c pre] & post & H); [by exists post | discriminate H].
  - rewrite orb_true_iff, IH, starts_spec. split.
    + intros [(post & H) | (pre & post & H)].
      * by exists EmptyString, post.
      * exists (String b pre), post. simpl. by rewrite H.
    + intros ([|c pre] & post & H).
      * left. by exists post.
      * right. injection H as -> ->. by exists pre, post.
Qed.

Lemma contains_cib_spec term name :
  contains_cib term name = true <-> contains_ci term name.
Proof. apply occurs_spec. Qed.

(** On a plain term the compiled pattern is the term's characters, and
    searching it is looking for the term, letter case apart. *)
Lemma re_compile_plain term :
  plain term = true ->
  re_compile term = Some (map Lit (list_ascii_of_string term)).
Proof.
  unfold plain. induction term as [|c term IH]; [done|].
  cbn [list_ascii_of_string forallb map re_compile].
  intros [Hc Hrest]%andb_true_iff. rewrite (IH Hrest).
  apply negb_true_iff in Hc.
  destruct (Ascii.eqb_spec c ".") as [-> | _]; [discriminate Hc|].
  by rewrite Hc.
Qed.

Lemma match_here_plain term s :
  match_here (map Lit (list_ascii_of_string term)) s
  = starts (lower_string term) (lower_string s).
Proof.
  revert s. induction term as [|c term IH]; intros s; [done|].
  destruct s as [|b s]; [done|]. simpl. by rewrite IH.
Qed.

Lemma re_search_plain term s :
  re_search (map Lit (list_ascii_of_string term)) s = contains_cib term s.
Proof.
  unfold contains_cib. induction s as [|b s IH].
  - simpl. by rewrite match_here_plain.
  - cbn [re_search lower_string occurs]. by rewrite match_here_plain, IH.
Qed.

Lemma filter_all {A} (P : A -> Prop) `{forall x, Decision (P x)} (l : list A) :
  (forall x, P x) -> filter P l = l.
Proof.
  intros HP. induction l as [|x l IH]; [done|].
  by rewrite filter_cons, decide_True, IH.
Qed.

(** One [if flt: df = df[mask]] step of the view. *)
Lemma view_step (b : bool) (test : Inv.row -> bool) (rows : list (nat * Inv.row)) :
  (if b then select (map (fun ir => test (snd ir)) rows) rows else rows)
  = filter (fun ir => negb b || test (snd ir) = true) rows.
Proof.
  destruct b; simpl.
  - apply select_lcol_filter.
  - symmetry. by apply filter_all.
Qed.

Lemma series_isin_lcol (f : Inv.row -> string) values
    (rows : list (nat * Inv.row)) :
  series_isin (lcol f rows) values
  = map (fun ir => isin (f (snd ir)) values) rows.
Proof. unfold series_isin, lcol. apply map_map. Qed.

(** The view on a plain search term, or none: the rows that pass every
    supplied filter, with their labels, in the order of the snapshot. *)
Lemma view_inventory_plain cat loc status term st :
  plain term = true ->
  view_inventory cat loc status term st
  = Returned
      (Some (filter (fun ir => passes cat loc status term (snd ir) = true)
                    (with_index (inventory st))))
      st.
Proof.
  intros Hplain. unfold view_inventory, bind, get_inventory.
  rewrite !series_isin_lcol.
  rewrite (view_step (truthy cat) (fun r => isin (Inv.Category r) cat)).
  rewrite (view_step (truthy loc) (fun r => isin (Inv.Location r) loc)).
  rewrite (view_step (truthy status) (fun r => isin (Inv.Status r) status)).
  rewrite !list_filter_filter.
  set (rows := filter _ (with_index (inventory st))).
  assert (Hlast :
    (if truthy_str term
     then mask ← str_contains (lcol Inv.Product_Name rows) term;
          Some (select mask rows)
     else Some rows)
    = Some (filter (fun ir => negb (truthy_str term)
                              || contains_cib term (Inv.Product_Name (snd ir))
                              = true) rows)).
  { unfold str_contains. rewrite (re_compile_plain term Hplain). simpl.
    unfold lcol. rewrite map_map.
    rewrite <- (view_step (truthy_str term)
                  (fun r => contains_cib term (Inv.Product_Name r))).
    destruct (truthy_str term); [|done]. do 2 f_equal.
    apply map_ext. intros ir. apply re_search_plain. }
  destruct (truthy_str term) eqn:Et; unfold ret;
    (rewrite Hlast || rewrite <- Hlast); unfold rows;
    rewrite list_filter_filter; do 2 f_equal;
    apply list_filter_iff; intros [i r]; unfold passes; simpl;
    rewrite ?Et; simpl; rewrite ?andb_true_iff; tauto.
Qed.

Lemma truthy_true {A} (l : list A) : truthy l = true <-> l <> [].
Proof. destruct l; simpl; split; congruence. Qed.

Lemma passes_spec cat loc status term r :
  passes cat loc status term r = true
  <-> (cat <> [] -> Inv.Category r ∈ cat)
      /\ (loc <> [] -> Inv.Location r ∈ loc)
      /\ (status <> [] -> Inv.Status r ∈ status)
      /\ (term <> EmptyString -> contains_ci term (Inv.Product_Name r)).
Proof.
  unfold passes. rewrite !andb_true_iff, !orb_true_iff, !negb_true_iff.
  rewrite !isin_true, contains_cib_spec.
  assert (Ht : truthy_str term = false <-> term = EmptyString)
    by (destruct term; simpl; split; congruence).
  rewrite Ht. clear Ht.
  assert (Hl : forall l : list string, truthy l = false <-> l = [])
    by (intros [|x l]; simpl; split; congruence).
  rewrite !Hl. clear Hl.
  destruct (decide (cat = [])), (decide (loc = [])), (decide (status = [])),
    (decide (term = EmptyString)); intuition congruence.
Qed.

(** What the claim C9 says holds for every plain search term (and for no
    search term): the view is made of the rows of the snapshot that satisfy
    each supplied filter, in the order of the snapshot. *)
Lemma view_inventory_plain_rows cat loc status term st :
  plain term = true ->
  exists rows,
    view_inventory cat loc status term st = Returned (Some rows) st
    /\ rows `sublist_of` with_index (inventory st)
    /\ (forall i r,
          (i, r) ∈ rows
          <-> inventory st !! i = Some r
              /\ (cat <> [] -> Inv.Category r ∈ cat)
              /\ (loc <> [] -> Inv.Location r ∈ loc)
              /\ (status <> [] -> Inv.Status r ∈ status)
              /\ (term <> EmptyString ->
                  contains_ci term (Inv.Product_Name r))).
Proof.
  intros Hplain. eexists. split; [by apply view_inventory_plain|]. split.
  - apply sublist_filter.
  - intros i r. rewrite list_elem_of_filter, elem_of_with_index. simpl.
    rewrite passes_spec. tauto.
Qed.

(** C9 at the search term ".": with the Status filter at its default, the
    view of the seeded inventory holds all three rows, although no seeded
    Product Name contains a full stop ([contains_cib] decides [contains_ci],
    see [contains_cib_spec]), so that the rows the claim describes are none.  [str.contains] reads the term as a regular expression, in
    which "." stands for any character. *)
Theorem view_inventory_search_is_regex now now' :
  view_inventory [] [] ["Active"] "." (seed now now')
  = Returned (Some (with_index seed_inventory)) (seed now now')
  /\ filter (fun ir => passes [] [] ["Active"] "." (snd ir) = true)
            (with_index seed_inventory) = []
  /\ map (fun r => contains_cib "." (Inv.Product_Name r)) seed_inventory
     = [false; false; false].
Proof. split_and!; reflexivity. Qed.

(** * Further properties of the ledger store *)

(** ** Transactions is append-only and numbered *)

(** X1. Whatever ledger operations are run, and whether they return or
    raise, the rows Transactions had are still its first rows, unchanged.
    If every row was numbered by its position before the run (row [i] has
    the identifier T[i+1], as in the seeded table), every row is so after
    it, and then no two rows of Transactions share an identifier. *)
Theorem transaction_ids_invariant (ops : list op) (st : session_state) :
  numbered 0 (transactions st) ->
  transactions st `prefix_of` transactions (run ops st)
  /\ (forall i t,
        transactions (run ops st) !! i = Some t ->
        Txn.Transaction_ID t = "T" +:+ format_03d (i + 1))
  /\ NoDup (map Txn.Transaction_ID (transactions (run ops st))).
Proof.
  intros Hold. destruct (run_appends ops st) as (new & E & Hnew).
  assert (Hall : numbered 0 (transactions (run ops st))).
  { rewrite E. by apply numbered_app. }
  split_and!.
  - rewrite E. by apply prefix_app_r.
  - intros i t Hi. by rewrite (Hall i t Hi).
  - by apply (numbered_ids 0).
Qed.

Lemma seed_numbered now now' : numbered 0 (transactions (seed now now')).
Proof. intros [|[|i]] t H; simplify_eq/=; done. Qed.

Lemma transaction_ids_invariant_witness :
  NoDup (map Txn.Transaction_ID
           (transactions
              (run [Add 100 desk; Delete "P004"; Add 101 desk;
                    Update "P404" []; Log (Build_log_call 102 "P001" "Laptop" 1 "Sale")]
                   (seed 98 99)))).
Proof.
  apply (transaction_ids_invariant _ (seed 98 99)). apply seed_numbered.
Defined.

(** ** Adding and deleting *)

Lemma filter_ne_absent pid (inv : list Inv.row) :
  pid ∉ col Inv.Product_ID inv ->
  filter (fun r => Inv.Product_ID r <> pid) inv = inv.
Proof.
  intros Hnot. induction inv as [|r inv IH]; [done|].
  unfold col in *. cbn [map] in Hnot. apply not_elem_of_cons in Hnot as [Hne Hnot].
  rewrite filter_cons, decide_True by done. by rewrite IH.
Qed.

Lemma filter_eq_absent pid (inv : list Inv.row) :
  pid ∉ col Inv.Product_ID inv ->
  filter (fun r => Inv.Product_ID r = pid) inv = [].
Proof.
  intros Hnot. induction inv as [|r inv IH]; [done|].
  unfold col in *. cbn [map] in Hnot. apply not_elem_of_cons in Hnot as [Hne Hnot].
  rewrite filter_cons, decide_False by congruence. by apply IH.
Qed.

(** X2. Adding a product whose identifier is new and deleting it right
    after gives back the Inventory there was, row for row; the 'Purchase'
    row the addition logged stays in Transactions. *)
Theorem add_then_delete now (P : Inv.row) (st : session_state) :
  Inv.Product_ID P ∉ col Inv.Product_ID (inventory st) ->
  (add_product now P ;; delete_product (Inv.Product_ID P)) st
  = Returned "Product deleted successfully"
      {| inventory := inventory st;
         transactions :=
           transactions st ++
           [ logged_row (length (transactions st) + 1)
               (Build_log_call now (Inv.Product_ID P) (Inv.Product_Name P)
                  (Inv.Quantity P) "Purchase") ] |}.
Proof.
  intros Hfresh. unfold bind at 1. rewrite add_product_run.
  apply isin_false in Hfresh as Hf. rewrite Hf, delete_product_run.
  cbn [inventory transactions]. do 2 f_equal.
  rewrite filter_app, filter_ne_absent by done.
  rewrite filter_cons, decide_False, filter_nil by (intros H; by apply H).
  apply app_nil_r.
Qed.

Lemma add_then_delete_witness :
  inventory (final_state ((add_product 100 desk ;;
                           delete_product (Inv.Product_ID desk)) (seed 98 99)))
  = seed_inventory.
Proof.
  rewrite (add_then_delete 100 desk (seed 98 99)); [reflexivity|].
  apply (bool_decide_unpack _). vm_compute. exact I.
Defined.

(** X3. Deleting an identifier and then adding a product with it always
    succeeds: the new row is the last one of Inventory, after the rows that
    had another identifier. *)
Theorem delete_then_add now (P : Inv.row) (st : session_state) :
  (delete_product (Inv.Product_ID P) ;; add_product now P) st
  = Returned (true, "Product added successfully")
      {| inventory :=
           filter (fun r => Inv.Product_ID r <> Inv.Product_ID P) (inventory st)
           ++ [P];
         transactions :=
           transactions st ++
           [ logged_row (length (transactions st) + 1)
               (Build_log_call now (Inv.Product_ID P) (Inv.Product_Name P)
                  (Inv.Quantity P) "Purchase") ] |}.
Proof.
  unfold bind at 1. rewrite delete_product_run, add_product_run.
  cbn [inventory transactions].
  replace (isin _ _) with false; [done|]. symmetry. apply isin_false.
  unfold col. intros (r & E & Hr)%list_elem_of_fmap.
  apply list_elem_of_filter in Hr as [Hne _]. by apply Hne.
Qed.

(** X4. What [delete_product] does to Inventory: the rows kept are a
    sublist of the old rows; the old row count is the new one plus the number
    of rows that had the identifier; an identifier that is not in Inventory
    leaves it as it was; distinct identifiers stay distinct, and then a
    present identifier costs exactly one row. *)
Theorem delete_product_inventory pid (st : session_state) :
  let inv := inventory st in
  let inv' := inventory (final_state (delete_product pid st)) in
  inv' `sublist_of` inv
  /\ length inv
     = (length inv' + length (filter (fun r => Inv.Product_ID r = pid) inv))%nat
  /\ (pid ∉ col Inv.Product_ID inv -> inv' = inv)
  /\ (NoDup (col Inv.Product_ID inv) ->
      NoDup (col Inv.Product_ID inv')
      /\ (pid ∈ col Inv.Product_ID inv -> length inv = S (length inv'))).
Proof.
  intros inv inv'. unfold inv'. rewrite delete_product_run.
  cbn [final_state inventory]. fold inv. clear inv'.
  assert (Hlen : forall l : list Inv.row,
             length l
             = (length (filter (fun r => Inv.Product_ID r <> pid) l)
                + length (filter (fun r => Inv.Product_ID r = pid) l))%nat).
  { intros l. induction l as [|r l IH]; [done|]. rewrite !filter_cons.
    destruct (decide (Inv.Product_ID r = pid)) as [E | E].
    - rewrite decide_False by (intros H; by apply H). simpl. lia.
    - rewrite decide_True by done. simpl. lia. }
  split_and!.
  - apply sublist_filter.
  - apply Hlen.
  - apply filter_ne_absent.
  - intros Hnd. split.
    + unfold col. eapply sublist_NoDup; [exact Hnd|].
      apply (fmap_sublist Inv.Product_ID), sublist_filter.
    + intros Hin. rewrite (Hlen inv). 
      enough (length (filter (fun r => Inv.Product_ID r = pid) inv) = 1%nat) by lia.
      clear Hlen. unfold col in *. induction inv as [|r l IH]; [by apply elem_of_nil in Hin|].
      cbn [map] in Hnd, Hin. apply NoDup_cons in Hnd as [Hr Hnd]. rewrite filter_cons.
      destruct (decide (Inv.Product_ID r = pid)) as [E | E].
      * simpl. f_equal. subst pid. by rewrite filter_eq_absent.
      * apply elem_of_cons in Hin as [Hin | Hin]; [congruence|]. by apply IH.
Qed.

(** X5. Two deletions can be done in either order: the session is the same
    after both. *)
Theorem delete_product_commute a b (st : session_state) :
  (delete_product a ;; delete_product b) st
  = (delete_product b ;; delete_product a) st.
Proof.
  unfold bind. rewrite !delete_product_run. cbn [inventory transactions].
  rewrite !list_filter_filter. do 2 f_equal.
  apply list_filter_iff. tauto.
Qed.

(** ** Updating *)

Lemma row_ext (r r' : Inv.row) : (forall c, cell c r = cell c r') -> r = r'.
Proof.
  intros H. destruct r, r'.
  pose proof (H Product_ID). pose proof (H Product_Name).
  pose proof (H Category). pose proof (H Quantity). pose proof (H Price).
  pose proof (H Supplier). pose proof (H Location).
  pose proof (H Reorder_Level). pose proof (H Expiry_Date).
  pose proof (H Status). simplify_eq/=. reflexivity.
Qed.

Lemma dict_get_None c updates :
  dict_get c updates = None <-> c ∉ map key updates.
Proof.
  induction updates as [|kv updates IH]; simpl.
  - split; [intros _; apply not_elem_of_nil | done].
  - rewrite not_elem_of_cons, <- IH.
    destruct (dict_get c updates); [split; [done | by intros [_ H]]|].
    destruct (decide (key kv = c)).
    + split; [done | intros [H _]; congruence].
    + split; [intros _; split; congruence | done].
Qed.

Lemma dict_get_Some c updates v :
  dict_get c updates = Some v -> exists kv, kv ∈ updates /\ key kv = c /\ new_value kv = v.
Proof.
  induction updates as [|kv updates IH]; simpl; [done|].
  destruct (dict_get c updates) as [w|].
  - intros [= ->]. destruct (IH eq_refl) as (kv' & Hin & Hk & Hv).
    exists kv'. split_and!; [by right | done | done].
  - destruct (decide (key kv = c)); [|done]. intros [= <-].
    exists kv. split_and!; [by left | done | done].
Qed.

Lemma update_same_values pid updates (st : session_state) idx r :
  list_find (fun r => Inv.Product_ID r = pid) (inventory st) = Some (idx, r) ->
  (forall kv, kv ∈ updates -> new_value kv = cell (key kv) r) ->
  update_product pid updates st = Returned "Product updated successfully" st.
Proof.
  intros Hfind Hsame. rewrite update_product_run, Hfind.
  destruct st as [inv trans]. cbn [inventory transactions] in *. do 2 f_equal.
  apply list_find_Some in Hfind as (Hr & _ & _).
  apply list_eq. intros j. destruct (decide (idx = j)) as [<- | Hne].
  - rewrite list_lookup_alter_eq, Hr. simpl. f_equal.
    apply row_ext. intros c. rewrite cell_apply_updates.
    destruct (dict_get c updates) as [v|] eqn:E; [|done].
    apply dict_get_Some in E as (kv & Hin & <- & <-). simpl. by apply Hsame.
  - by apply list_lookup_alter_ne.
Qed.


(** X6. An [updates] that, for each of its keys, gives the value the first
    matching row already has (the empty dict in particular) changes nothing:
    [update_product] returns its message and the session is the same. *)
Theorem update_product_same_values pid updates (st : session_state) idx r :
  inventory st !! idx = Some r ->
  Inv.Product_ID r = pid ->
  (forall j x, inventory st !! j = Some x -> (j < idx)%nat ->
               Inv.Product_ID x <> pid) ->
  (forall kv, kv ∈ updates -> new_value kv = cell (key kv) r) ->
  update_product pid updates st = Returned "Product updated successfully" st.
Proof.
  intros Hr Hid Hfirst Hsame.
  apply (update_same_values pid updates st idx r); [|done].
  apply list_find_Some. by split_and!.
Qed.

Lemma update_product_same_values_witness :
  update_product "P002" [Set_Quantity 200; Set_Product_Name "Mouse"] (seed 98 99)
  = Returned "Product updated successfully" (seed 98 99).
Proof.
  apply (update_product_same_values "P002" _ (seed 98 99) 1%nat
           (Inv.mk "P002" "Mouse" "Accessories" 200 (Qc_of_Z 500) "PeriTech"
              "Warehouse B" 50 None "Active")).
  - reflexivity.
  - reflexivity.
  - intros [|j] x Hx Hj; [|lia]. by injection Hx as <-.
  - intros kv Hin.
    repeat (apply elem_of_cons in Hin as [-> | Hin]; [reflexivity|]).
    by apply elem_of_nil in Hin.
Defined.

Lemma alter_col_same (f : Inv.row -> Inv.row) idx (inv : list Inv.row) :
  (forall r, Inv.Product_ID (f r) = Inv.Product_ID r) ->
  col Inv.Product_ID (alter f idx inv) = col Inv.Product_ID inv.
Proof.
  intros Hf. unfold col. revert idx.
  induction inv as [|r inv IH]; intros [|idx]; simpl; try done.
  - by rewrite Hf.
  - f_equal. apply IH.
Qed.

Lemma apply_updates_keeps_id updates r :
  Product_ID ∉ map key updates ->
  Inv.Product_ID (apply_updates updates r) = Inv.Product_ID r.
Proof.
  intros Hk. pose proof (cell_apply_updates updates Product_ID r) as H.
  apply dict_get_None in Hk. rewrite Hk in H. simpl in H. congruence.
Qed.

(** X7. When 'Product ID' is not a key of [updates], [update_product]
    leaves the Product ID of every row as it is, whether it returns or
    raises.  So it keeps the identifiers distinct when they are, and a second
    call with the same arguments ends as the first one did: the same
    outcome, and the session the first call left. *)
Theorem update_product_keeps_ids pid updates (st : session_state) :
  Product_ID ∉ map key updates ->
  let st' := final_state (update_product pid updates st) in
  col Inv.Product_ID (inventory st') = col Inv.Product_ID (inventory st)
  /\ (NoDup (col Inv.Product_ID (inventory st)) ->
      NoDup (col Inv.Product_ID (inventory st')))
  /\ update_product pid updates st' = update_product pid updates st.
Proof.
  intros Hk st'.
  assert (Hids : col Inv.Product_ID (inventory st')
                 = col Inv.Product_ID (inventory st)).
  { unfold st'. rewrite update_product_run.
    destruct (list_find _ _) as [[idx r]|]; [|done]. cbn [final_state inventory].
    apply alter_col_same. intros x. by apply apply_updates_keeps_id. }
  split_and!; [done | by rewrite Hids |].
  unfold st'. rewrite !update_product_run.
  destruct (list_find _ (inventory st)) as [[idx r]|] eqn:Hfind;
    cbn [final_state]; [|by rewrite Hfind].
  apply list_find_Some in Hfind as (Hr & Hid & Hfirst).
  assert (Hfind' :
    list_find (fun r => Inv.Product_ID r = pid)
              (alter (apply_updates updates) idx (inventory st))
    = Some (idx, apply_updates updates r)).
  { apply list_find_Some. split_and!.
    - by rewrite list_lookup_alter_eq, Hr.
    - by rewrite apply_updates_keeps_id.
    - intros j y Hy Hlt. rewrite list_lookup_alter_ne in Hy by lia.
      by apply (Hfirst j). }
  cbn [inventory transactions]. rewrite Hfind'. do 2 f_equal.
  rewrite list_alter_alter_eq. apply list_alter_ext; [|done].
  intros x _. simpl. apply row_ext. intros c.
  rewrite !cell_apply_updates. by destruct (dict_get c updates).
Qed.

Lemma update_product_keeps_ids_witness :
  col Inv.Product_ID
    (inventory (final_state
       (update_product "P001" [Set_Quantity 5; Set_Price (Qc_of_Z 75000)]
          (seed 98 99))))
  = ["P001"; "P002"; "P003"].
Proof.
  destruct (update_product_keeps_ids "P001"
              [Set_Quantity 5; Set_Price (Qc_of_Z 75000)] (seed 98 99))
    as (Hids & _ & _).
  - apply (bool_decide_unpack _). vm_compute. exact I.
  - rewrite Hids. reflexivity.
Defined.

(** X8. [update_product] does not check identifiers: giving a row the
    Product ID of another row is accepted, and Inventory then has two rows
    with one Product ID. *)
Theorem update_product_can_duplicate a b (st : session_state) :
  a ∈ col Inv.Product_ID (inventory st) ->
  b ∈ col Inv.Product_ID (inventory st) ->
  a <> b ->
  exists st',
    update_product a [Set_Product_ID b] st
    = Returned "Product updated successfully" st'
    /\ ~ NoDup (col Inv.Product_ID (inventory st')).
Proof.
  intros Ha Hb Hab. destruct (list_find_ids_Some a _ Ha) as (idx & r & Hfind).
  rewrite update_product_run, Hfind. eexists. split; [reflexivity|].
  cbn [inventory]. apply list_find_Some in Hfind as (Hr & Hid & _).
  apply list_elem_of_fmap in Hb as (rb & Eb & Hrb).
  apply list_elem_of_lookup in Hrb as (j & Hj).
  assert (Hne : idx <> j) by (intros ->; congruence).
  intros Hnd. apply Hne, (proj1 (NoDup_alt _) Hnd idx j b).
  - unfold col. rewrite list_lookup_fmap, list_lookup_alter_eq, Hr.
    by destruct r.
  - unfold col. rewrite list_lookup_fmap, list_lookup_alter_ne, Hj by done.
    simpl. by rewrite <- Eb.
Qed.

Lemma update_product_can_duplicate_witness :
  exists st',
    update_product "P001" [Set_Product_ID "P003"] (seed 98 99)
    = Returned "Product updated successfully" st'
    /\ ~ NoDup (col Inv.Product_ID (inventory st')).
Proof.
  apply update_product_can_duplicate.
  - apply (bool_decide_unpack _). vm_compute. exact I.
  - apply (bool_decide_unpack _). vm_compute. exact I.
  - discriminate.
Defined.

(** ** The dashboard after a change of the ledger *)















Lemma length_with_index {R} (l : list R) : length (with_index l) = length l.
Proof.
  rewrite <- (reset_index_label_from 0 l) at 2.
  unfold reset_index. by rewrite length_map.
Qed.

(** X12. On every snapshot the dashboard's Low Stock Items is at most its
    Total Products, and the low stock alert is shown exactly when Low Stock
    Items is not zero. *)
Theorem dashboard_alert_shown (st : session_state) :
  exists d,
    show_dashboard st = Returned d st
    /\ (Low_Stock_Items d <= Total_Products d)%nat
    /\ (Low_Stock_Alert d = None <-> Low_Stock_Items d = 0%nat)
    /\ length (default [] (Low_Stock_Alert d)) = Low_Stock_Items d.
Proof.
  destruct (show_dashboard_run st) as (d & Hrun & Hn & _ & _ & Hlow & Hl & Ha).
  exists d. split_and!; [done | | | ].
  - rewrite Hl, Hlow, Hn, <- (length_with_index (inventory st)).
    apply length_filter.
  - rewrite Ha, Hl. by destruct (low_stock_items d).
  - rewrite Ha, Hl. destruct (low_stock_items d); [done|].
    simpl. by rewrite length_map.
Qed.

(** ** The inventory view, whatever the search term *)



(** * Charts and reports *)

(** ** Sorting *)

Section Sorting.
Context {A : Type} (le : A -> A -> bool).
Implicit Types (x y : A) (l : list A).

Lemma insert_sorted_Permutation x l : insert_sorted le x l ≡ₚ x :: l.
Proof.
  induction l as [|y l IH]; simpl; [done|].
  destruct (le x y); [done|]. rewrite IH. apply Permutation_swap.
Qed.

Lemma stable_sort_Permutation l : stable_sort le l ≡ₚ l.
Proof.
  induction l as [|x l IH]; simpl; [done|].
  by rewrite insert_sorted_Permutation, IH.
Qed.

Hypothesis le_total : forall x y, le x y = true \/ le y x = true.
Hypothesis le_trans : forall x y z, le x y = true -> le y z = true -> le x z = true.

Lemma insert_sorted_StronglySorted x l :
  StronglySorted (fun a b => le a b = true) l ->
  StronglySorted (fun a b => le a b = true) (insert_sorted le x l).
Proof.
  induction 1 as [|y l Hl IH Hy]; simpl; [repeat constructor|].
  destruct (le x y) eqn:E.
  - constructor; [by constructor|]. constructor; [done|].
    eapply Forall_impl; [exact Hy|]. intros z Hz. by eapply le_trans.
  - constructor; [done|]. rewrite insert_sorted_Permutation.
    constructor; [|done]. destruct (le_total x y); congruence.
Qed.

Lemma stable_sort_StronglySorted l :
  StronglySorted (fun a b => le a b = true) (stable_sort le l).
Proof.
  induction l as [|x l IH]; simpl; [constructor|].
  by apply insert_sorted_StronglySorted.
Qed.
End Sorting.







(** A sorted list without repeats is strictly sorted. *)
Lemma StronglySorted_strict {K} (le : K -> K -> bool) (l : list K) :
  StronglySorted (fun a b => le a b = true) l -> NoDup l ->
  StronglySorted (fun a b => le a b = true /\ a <> b) l.
Proof.
  induction 1 as [|x l Hl IH Hx]; intros Hnd; [constructor|].
  apply NoDup_cons in Hnd as [Hx' Hnd]. constructor; [by apply IH|].
  apply Forall_forall. intros y Hy. split.
  - by apply (proj1 (Forall_forall _ _) Hx).
  - intros ->. done.
Qed.

(** ** Grouping *)

Lemma Zsum_ext {A} (f g : A -> Z) l :
  (forall x, x ∈ l -> f x = g x) -> Zsum f l = Zsum g l.
Proof.
  induction l as [|x l IH]; intros H; simpl; [done|].
  rewrite (H x) by left. rewrite IH; [done|]. intros y Hy. apply H. by right.
Qed.

Lemma Zsum_add {A} (f g : A -> Z) l :
  Zsum (fun x => f x + g x) l = Zsum f l + Zsum g l.
Proof. induction l as [|x l IH]; simpl; lia. Qed.

Lemma Zsum_map {A B} (f : B -> Z) (g : A -> B) l :
  Zsum f (map g l) = Zsum (fun x => f (g x)) l.
Proof. induction l as [|x l IH]; simpl; congruence. Qed.

Lemma Zsum_length {A} (l : list A) : Zsum (fun _ => 1) l = Z.of_nat (length l).
Proof. induction l as [|x l IH]; simpl length; simpl Zsum; lia. Qed.


Lemma Zsum_indicator {K} `{EqDecision K} (x : K) (v : Z) (keys : list K) :
  NoDup keys ->
  Zsum (fun k => if decide (x = k) then v else 0) keys
  = if decide (x ∈ keys) then v else 0.
Proof.
  induction 1 as [|k keys Hk Hnd IH]; cbn [Zsum].
  - by rewrite decide_False by apply not_elem_of_nil.
  - rewrite IH. destruct (decide (x = k)) as [-> | Hne].
    + rewrite decide_False by done. rewrite decide_True by left. lia.
    + destruct (decide (x ∈ keys)).
      * rewrite decide_True by (by right). lia.
      * rewrite decide_False; [lia|]. by intros [?|?]%elem_of_cons.
Qed.

Section Groupby.
Context {R K : Type} `{EqDecision K} (le : K -> K -> bool) (c : R -> K).
Hypothesis le_total : forall x y, le x y = true \/ le y x = true.
Hypothesis le_trans : forall x y z, le x y = true -> le y z = true -> le x z = true.
Implicit Types (df : list R) (k : K).

Lemma groupby_keys df :
  map fst (groupby le c df) = stable_sort le (remove_dups (map c df)).
Proof. unfold groupby. rewrite map_map. simpl. apply map_id. Qed.

Lemma groupby_keys_elem df k : k ∈ map fst (groupby le c df) <-> k ∈ map c df.
Proof.
  by rewrite groupby_keys, stable_sort_Permutation, elem_of_remove_dups.
Qed.

Lemma groupby_keys_NoDup df : NoDup (map fst (groupby le c df)).
Proof.
  rewrite groupby_keys, stable_sort_Permutation. apply NoDup_remove_dups.
Qed.

Lemma groupby_keys_sorted df :
  StronglySorted (fun a b => le a b = true /\ a <> b) (map fst (groupby le c df)).
Proof.
  apply StronglySorted_strict; [|apply groupby_keys_NoDup].
  rewrite groupby_keys. by apply stable_sort_StronglySorted.
Qed.

Lemma groupby_elem df k rows :
  (k, rows) ∈ groupby le c df
  <-> k ∈ map c df /\ rows = filter (fun r => c r = k) df.
Proof.
  unfold groupby. rewrite list_elem_of_fmap. split.
  - intros (k' & [= -> ->] & Hk).
    by rewrite stable_sort_Permutation, elem_of_remove_dups in Hk.
  - intros [Hk ->]. exists k. split; [done|].
    by rewrite stable_sort_Permutation, elem_of_remove_dups.
Qed.

Lemma groupby_nonempty df k rows : (k, rows) ∈ groupby le c df -> rows <> [].
Proof.
  intros [Hk ->]%groupby_elem. apply list_elem_of_fmap in Hk as (r & -> & Hr).
  intros Hnil. eapply (filter_nil_not_elem_of _ _ r Hnil); done.
Qed.

Lemma Zsum_filter_cons f k (r : R) df :
  Zsum f (filter (fun r => c r = k) (r :: df))
  = (if decide (c r = k) then f r else 0)
    + Zsum f (filter (fun r => c r = k) df).
Proof. rewrite filter_cons. by destruct (decide (c r = k)). Qed.

Lemma Zsum_zero (keys : list K) : Zsum (fun _ => 0) keys = 0.
Proof. induction keys as [|k keys IH]; simpl; lia. Qed.

Lemma Zsum_groups_keys f (keys : list K) df :
  NoDup keys -> (forall r, r ∈ df -> c r ∈ keys) ->
  Zsum (fun k => Zsum f (filter (fun r => c r = k) df)) keys = Zsum f df.
Proof.
  intros Hnd. induction df as [|r df IH]; intros Hcov.
  - apply Zsum_zero.
  - rewrite (Zsum_ext _ _ _ (fun k _ => Zsum_filter_cons f k r df)).
    rewrite Zsum_add, Zsum_indicator by done.
    rewrite decide_True by (apply Hcov; left).
    rewrite IH; [done|]. intros x Hx. apply Hcov. by right.
Qed.

Lemma Zsum_groups f df :
  Zsum (fun g => Zsum f (snd g)) (groupby le c df) = Zsum f df.
Proof.
  unfold groupby. rewrite Zsum_map. simpl. apply Zsum_groups_keys.
  - rewrite stable_sort_Permutation. apply NoDup_remove_dups.
  - intros r Hr. rewrite stable_sort_Permutation, elem_of_remove_dups.
    apply list_elem_of_fmap. by exists r.
Qed.
End Groupby.

(** ** The analysis reports *)

Lemma StronglySorted_weaken {A} (R1 R2 : A -> A -> Prop) (l : list A) :
  (forall a b, R1 a b -> R2 a b) -> StronglySorted R1 l -> StronglySorted R2 l.
Proof.
  intros HR. induction 1 as [|x l Hl IH Hx]; constructor; [done|].
  eapply Forall_impl; [exact Hx|]. intros y. apply HR.
Qed.






(** The seeded inventory by Category: Accessories before Electronics. *)
Example category_analysis_seed now now' :
  exists rep,
    show_reports_category_analysis (seed now now') = Returned rep (seed now now')
    /\ map (fun g => (fst g, Quantity_sum (snd g), Product_Count (snd g))) rep
       = [("Accessories", 350, 2%nat); ("Electronics", 50, 1%nat)].
Proof. eexists. split; reflexivity. Qed.

(** ** The top ten chart and the transaction history *)

Lemma index_label_from {R} k (l : list R) :
  map fst (label_from k l) = seq k (length l).
Proof.
  revert k. induction l as [|x l IH]; intros k; [done|].
  rewrite label_from_cons. simpl. f_equal. apply IH.
Qed.

Section SortValues.
Context {R : Type} (c : R -> Z).
Implicit Types (df : list R).

Lemma sort_values_desc_Permutation df : sort_values_desc c df ≡ₚ with_index df.
Proof. apply stable_sort_Permutation. Qed.

Lemma sort_values_desc_sorted df :
  StronglySorted (fun a b => c (snd b) <= c (snd a)) (sort_values_desc c df).
Proof.
  eapply StronglySorted_weaken;
    [|apply (stable_sort_StronglySorted (fun a b => c (snd b) <=? c (snd a)))].
  - intros a b. apply Z.leb_le.
  - intros x y. rewrite !Z.leb_le. lia.
  - intros x y z. rewrite !Z.leb_le. lia.
Qed.

Lemma sort_values_desc_labels df : NoDup (map fst (sort_values_desc c df)).
Proof.
  rewrite sort_values_desc_Permutation, with_index_label_from, index_label_from.
  apply NoDup_seq.
Qed.

Lemma sort_values_desc_elem df i r :
  (i, r) ∈ sort_values_desc c df <-> df !! i = Some r.
Proof. rewrite sort_values_desc_Permutation. apply elem_of_with_index. Qed.
End SortValues.

(** X16. The frame of the "Top 10 Products by Quantity" chart has ten rows,
    or all of them when Inventory has fewer; each is a row of Inventory under
    its own label, none twice; they come in descending order of Quantity, and
    no row left out has a larger Quantity than a row of the chart. *)
Theorem top10_chart (st : session_state) :
  exists top,
    show_dashboard_top10 st = Returned top st
    /\ length top = min 10 (length (inventory st))
    /\ NoDup (map fst top)
    /\ (forall i r, (i, r) ∈ top -> inventory st !! i = Some r)
    /\ StronglySorted
         (fun a b => Inv.Quantity (snd b) <= Inv.Quantity (snd a)) top
    /\ (forall i r j x,
          (i, r) ∈ top -> inventory st !! j = Some x -> (j, x) ∉ top ->
          Inv.Quantity x <= Inv.Quantity r).
Proof.
  eexists. split; [reflexivity|]. unfold nlargest.
  set (sorted := sort_values_desc Inv.Quantity (inventory st)).
  pose proof (sort_values_desc_sorted Inv.Quantity (inventory st)) as Hs.
  fold sorted in Hs. rewrite <- (take_drop 10 sorted) in Hs.
  apply StronglySorted_app in Hs as (Hdom & Htop & Hrest).
  split_and!.
  - rewrite length_take. unfold sorted.
    by rewrite sort_values_desc_Permutation, length_with_index.
  - eapply sublist_NoDup; [apply (sort_values_desc_labels Inv.Quantity (inventory st))|].
    apply (fmap_sublist fst), sublist_take.
  - intros i r Hin. apply (sort_values_desc_elem Inv.Quantity).
    eapply elem_of_sublist; [exact Hin | apply sublist_take].
  - exact Htop.
  - intros i r j x Hin Hx Hout. apply (Hdom (i, r) (j, x) Hin).
    apply (sort_values_desc_elem Inv.Quantity) in Hx. fold sorted in Hx.
    rewrite <- (take_drop 10 sorted) in Hx.
    apply elem_of_app in Hx as [Hx | Hx]; done.
Qed.

(** X17. The Transaction History report shows every row of Transactions
    once, under its own label, latest Date first.  Its chart data has one
    entry per Date that occurs, in strictly ascending order of the Date, with
    the number of transactions of that Date, which is never zero; the counts
    add up to the number of transactions. *)
Theorem transaction_history_report (st : session_state) :
  exists sorted counts,
    show_reports_transaction_history st = Returned (sorted, counts) st
    /\ sorted ≡ₚ with_index (transactions st)
    /\ StronglySorted (fun a b => Txn.Date (snd b) <= Txn.Date (snd a)) sorted
    /\ StronglySorted Z.lt (map fst counts)
    /\ (forall k, k ∈ map fst counts <-> k ∈ col Txn.Date (transactions st))
    /\ (forall k n,
          (k, n) ∈ counts ->
          n = length (filter (fun t => Txn.Date t = k) (transactions st))
          /\ (0 < n)%nat)
    /\ Zsum (fun g => Z.of_nat (snd g)) counts
       = Z.of_nat (length (transactions st)).
Proof.
  do 2 eexists. split; [reflexivity|]. unfold datetime in *.
  set (trans := transactions st).
  assert (Htot : forall x y : Z, (x <=? y) = true \/ (y <=? x) = true)
    by (intros x y; rewrite !Z.leb_le; lia).
  assert (Htr : forall x y z : Z,
             (x <=? y) = true -> (y <=? z) = true -> (x <=? z) = true)
    by (intros x y z; rewrite !Z.leb_le; lia).
  assert (Hkeys : map fst (map (fun g : Z * list Txn.row => (fst g, length (snd g)))
                              (groupby Z.leb Txn.Date trans))
                  = map fst (groupby Z.leb Txn.Date trans)).
  { rewrite map_map. apply map_ext. by intros [k rows]. }
  split_and!.
  - apply sort_values_desc_Permutation.
  - apply sort_values_desc_sorted.
  - rewrite Hkeys. eapply StronglySorted_weaken;
      [|by apply (groupby_keys_sorted Z.leb Txn.Date)].
    intros a b [Hle%Z.leb_le Hne]. lia.
  - intros k. rewrite Hkeys. apply groupby_keys_elem.
  - intros k n Hin.
    apply list_elem_of_fmap in Hin as ([k' rows] & [= -> ->] & Hg).
    pose proof (groupby_nonempty _ _ _ _ _ Hg) as Hne.
    apply groupby_elem in Hg as [_ ->]. simpl. split; [done|].
    destruct (filter _ trans); simpl; [done | lia].
  - rewrite Zsum_map. simpl. rewrite <- Zsum_length.
    rewrite <- (Zsum_groups Z.leb Txn.Date (fun _ => 1) trans).
    apply Zsum_ext. intros [k rows] _. simpl. by rewrite Zsum_length.
Qed.

(** * Export *)

Example b64encode_examples :
  b64encode "Man" = "TWFu" /\ b64encode "Ma" = "TWE=" /\ b64encode "M" = "TQ=="
  /\ b64encode "Product ID,Quantity" = "UHJvZHVjdCBJRCxRdWFudGl0eQ==".
Proof. repeat split; reflexivity. Qed.

Lemma N_of_ascii_lt a : (N_of_ascii a < 256)%N.
Proof. apply N_ascii_bounded. Qed.

Lemma b64_digit_value n :
  (n < 64)%N ->
  b64_value (b64_digit n) = Some n /\ Ascii.eqb (b64_digit n) "=" = false.
Proof.
  intros Hn. rewrite <- (N2Nat.id n). assert (Hm : (N.to_nat n < 64)%nat) by lia.
  generalize dependent (N.to_nat n). clear. intros m Hm.
  do 64 (destruct m as [|m]; [split; reflexivity|]). lia.
Qed.

Lemma b64_digits_lt a b c :
  (b64_digit1 a < 64 /\ b64_digit2 a b < 64
   /\ b64_digit3 b c < 64 /\ b64_digit4 c < 64)%N.
Proof.
  unfold b64_digit1, b64_digit2, b64_digit3, b64_digit4.
  pose proof (N_of_ascii_lt a). pose proof (N_of_ascii_lt b).
  pose proof (N_of_ascii_lt c).
  repeat split; zify; Z.to_euclidean_division_equations; lia.
Qed.

Lemma b64_bytes_digits a b c :
  b64_byte1 (b64_digit1 a) (b64_digit2 a b) = a
  /\ b64_byte2 (b64_digit2 a b) (b64_digit3 b c) = b
  /\ b64_byte3 (b64_digit3 b c) (b64_digit4 c) = c.
Proof.
  unfold b64_byte1, b64_byte2, b64_byte3.
  unfold b64_digit1, b64_digit2, b64_digit3, b64_digit4.
  pose proof (N_of_ascii_lt a). pose proof (N_of_ascii_lt b).
  pose proof (N_of_ascii_lt c).
  rewrite <- (ascii_N_embedding a) at 3. rewrite <- (ascii_N_embedding b) at 4.
  rewrite <- (ascii_N_embedding c) at 4.
  repeat split; f_equal; zify; Z.to_euclidean_division_equations; lia.
Qed.

(** Induction three characters at a time. *)
Lemma string_ind3 (P : string -> Prop) :
  P EmptyString ->
  (forall a, P (String a EmptyString)) ->
  (forall a b, P (String a (String b EmptyString))) ->
  (forall a b c s, P s -> P (String a (String b (String c s)))) ->
  forall s, P s.
Proof.
  intros H0 H1 H2 H3.
  assert (H : forall s, P s /\ (forall a, P (String a s))
                        /\ (forall a b, P (String a (String b s)))).
  { induction s as [|c s (IH0 & IH1 & IH2)]; [by split_and!|].
    split_and!; [apply IH1 | intros a; apply IH2 | intros a b; by apply H3]. }
  intros s. apply H.
Qed.

Lemma b64_roundtrip (s : string) : b64decode (b64encode s) = Some s.
Proof.
  induction s as [|a|a b|a b c s IH] using string_ind3.
  - reflexivity.
  - destruct (b64_digits_lt a Ascii.zero Ascii.zero) as (H1 & H2 & _).
    destruct (b64_bytes_digits a Ascii.zero Ascii.zero) as (B1 & _).
    destruct (b64_digit_value _ H1) as [V1 _].
    destruct (b64_digit_value _ H2) as [V2 _].
    cbn [b64encode b64decode]. rewrite V1, V2. simpl. by rewrite B1.
  - destruct (b64_digits_lt a b Ascii.zero) as (H1 & H2 & H3 & _).
    destruct (b64_bytes_digits a b Ascii.zero) as (B1 & B2 & _).
    destruct (b64_digit_value _ H1) as [V1 _].
    destruct (b64_digit_value _ H2) as [V2 _].
    destruct (b64_digit_value _ H3) as [V3 E3].
    cbn [b64encode b64decode]. rewrite V1, V2. simpl. rewrite E3, V3. simpl.
    by rewrite B1, B2.
  - destruct (b64_digits_lt a b c) as (H1 & H2 & H3 & H4).
    destruct (b64_bytes_digits a b c) as (B1 & B2 & B3).
    destruct (b64_digit_value _ H1) as [V1 _].
    destruct (b64_digit_value _ H2) as [V2 _].
    destruct (b64_digit_value _ H3) as [V3 _].
    destruct (b64_digit_value _ H4) as [V4 E4].
    cbn [b64encode b64decode]. rewrite V1, V2. simpl. rewrite E4, V3. simpl.
    rewrite V4. simpl. rewrite IH. simpl. by rewrite B1, B2, B3.
Qed.


(** X18. Nothing is lost in [b64encode]: reading its output back gives the
    text it was given, byte for byte, for every text; so two different texts
    never have the same encoding. *)
Theorem b64decode_b64encode (s : string) :
  b64decode (b64encode s) = Some s
  /\ (forall s', b64encode s' = b64encode s -> s' = s).
Proof.
  split; [apply b64_roundtrip|]. intros s' E.
  pose proof (b64_roundtrip s') as H. rewrite E, b64_roundtrip in H.
  congruence.
Qed.

Lemma b64_digit_in_alphabet n :
  (n < 64)%N -> is_Some (b64_value (b64_digit n)).
Proof. intros Hn. destruct (b64_digit_value n Hn) as [-> _]. by eexists. Qed.

Ltac b64_chars :=
  repeat (apply Forall_cons; split;
          [first [left; by apply b64_digit_in_alphabet | by right]|]);
  try apply Forall_nil; try exact I.

Lemma b64_shape (s : string) :
  String.length (b64encode s) = (4 * ((String.length s + 2) / 3))%nat
  /\ Forall (fun c => is_Some (b64_value c) \/ c = "="%char)
            (list_ascii_of_string (b64encode s)).
Proof.
  induction s as [|a|a b|a b c s [IHl IHc]] using string_ind3.
  - split; [reflexivity | constructor].
  - destruct (b64_digits_lt a Ascii.zero Ascii.zero) as (H1 & H2 & _).
    split; [reflexivity|]. cbn [b64encode list_ascii_of_string]. b64_chars.
  - destruct (b64_digits_lt a b Ascii.zero) as (H1 & H2 & H3 & _).
    split; [reflexivity|]. cbn [b64encode list_ascii_of_string]. b64_chars.
  - destruct (b64_digits_lt a b c) as (H1 & H2 & H3 & H4). split.
    + cbn [b64encode String.length]. rewrite IHl.
      replace (S (S (S (String.length s))) + 2)%nat
        with (String.length s + 2 + 1 * 3)%nat by lia.
      rewrite Nat.div_add by done. lia.
    + cbn [b64encode list_ascii_of_string]. b64_chars. exact IHc.
Qed.


(** X19. The output of [b64encode] has four characters for every three
    bytes of the text, the last group filled up, so that its length is a
    multiple of four; all its characters are digits of the base64 alphabet
    or the filling "=", and none is a quotation mark. *)
Theorem b64encode_shape (s : string) :
  String.length (b64encode s) = (4 * ((String.length s + 2) / 3))%nat
  /\ (String.length (b64encode s) mod 4 = 0)%nat
  /\ Forall (fun c => is_Some (b64_value c) \/ c = "="%char)
            (list_ascii_of_string (b64encode s))
  /\ Forall (fun c => c <> "034"%char) (list_ascii_of_string (b64encode s)).
Proof.
  destruct (b64_shape s) as [Hl Hc]. split_and!; [done | | done |].
  - rewrite Hl, Nat.mul_comm. apply Nat.Div0.mod_mul.
  - eapply Forall_impl; [exact Hc|]. intros c Hd E. subst c.
    destruct Hd as [[n Hn] | H]; [vm_compute in Hn|]; discriminate.
Qed.

Lemma string_app_inv_head s t1 t2 : s +:+ t1 = s +:+ t2 -> t1 = t2.
Proof. induction s as [|a s IH]; simpl; [done|]. intros [= H]. by apply IH. Qed.

Lemma string_length_app s t :
  String.length (s +:+ t) = (String.length s + String.length t)%nat.
Proof. induction s as [|a s IH]; simpl; [done | by rewrite IH]. Qed.

Lemma string_app_inv_tail t1 t2 s : t1 +:+ s = t2 +:+ s -> t1 = t2.
Proof.
  revert t2. induction t1 as [|a t1 IH]; intros [|b t2]; try done.
  - intros H. apply (f_equal String.length) in H.
    change (String.length s = S (String.length (t2 +:+ s))) in H.
    rewrite string_length_app in H. lia.
  - intros H. apply (f_equal String.length) in H.
    change (S (String.length (t1 +:+ s)) = String.length s) in H.
    rewrite string_length_app in H. lia.
  - intros H. change (String a (t1 +:+ s) = String b (t2 +:+ s)) in H.
    injection H as -> H. f_equal. by apply IH.
Qed.

(** X20. The link [export_to_csv] returns carries the table's CSV text
    whole: the text between "base64," and the quotation mark that closes the
    address reads back, as base64, to exactly [df.to_csv(index=False)], and
    it contains no quotation mark itself.  Hence two tables whose CSV texts
    differ never get the same link. *)
Theorem export_to_csv_link {R} (to_csv : list R -> string) (df : list R)
    (filename : string) :
  exists payload,
    export_to_csv to_csv df filename
    = "<a href=" +:+ dq +:+ "data:file/csv;base64," +:+ payload +:+ dq
      +:+ " download=" +:+ dq +:+ filename +:+ ".csv" +:+ dq
      +:+ ">Download " +:+ filename +:+ "</a>"
    /\ b64decode payload = Some (to_csv df)
    /\ Forall (fun c => c <> "034"%char) (list_ascii_of_string payload)
    /\ (forall df',
          export_to_csv to_csv df' filename = export_to_csv to_csv df filename ->
          to_csv df' = to_csv df).
Proof.
  exists (b64encode (to_csv df)). split_and!.
  - reflexivity.
  - apply b64_roundtrip.
  - destruct (b64_shape (to_csv df)) as [_ Hc].
    eapply Forall_impl; [exact Hc|]. intros c Hd E. subst c.
    destruct Hd as [[n Hn] | H]; [vm_compute in Hn|]; discriminate.
  - intros df' H. unfold export_to_csv in H.
    do 3 apply string_app_inv_head in H. apply string_app_inv_tail in H.
    pose proof (b64_roundtrip (to_csv df')) as H'. rewrite H in H'.
    rewrite b64_roundtrip in H'. congruence.
Qed.

(** * Product management *)

Lemma first_row k (inv : list Inv.row) pid :
  head (select (map (fun r => String.eqb (Inv.Product_ID r) pid) inv)
               (label_from k inv))
  = (fun ir => ((k + fst ir)%nat, snd ir))
      <$> list_find (fun r => Inv.Product_ID r = pid) inv.
Proof.
  revert k. induction inv as [|r inv IH]; intros k; [done|].
  rewrite label_from_cons. cbn [map select list_find].
  destruct (String.eqb_spec (Inv.Product_ID r) pid) as [E | E].
  - rewrite decide_True by done. simpl. do 2 f_equal. lia.
  - rewrite decide_False by done. rewrite IH.
    fold (list_find (fun r => Inv.Product_ID r = pid) inv).
    destruct (list_find _ inv) as [[i x]|]; simpl; [do 2 f_equal; lia | done].
Qed.

Lemma list_index_Some x options : is_Some (list_index x options) <-> x ∈ options.
Proof.
  induction options as [|y options IH]; simpl.
  - rewrite elem_of_nil. split; [by intros [? ?] | done].
  - rewrite elem_of_cons, <- IH. destruct (String.eqb_spec y x) as [-> | Hne].
    + split; [by left | by eexists].
    + rewrite fmap_is_Some. split; [by right | intros [? | ?]; congruence].
Qed.

(** The updates the edit form sends. *)
Lemma edit_updates_row v r :
  apply_updates
    [ Set_Product_Name (new_name v); Set_Category (new_category v);
      Set_Quantity (new_quantity v); Set_Price (new_price v);
      Set_Supplier (new_supplier v); Set_Location (new_location v);
      Set_Reorder_Level (new_reorder v) ] r
  = Inv.mk (Inv.Product_ID r) (new_name v) (new_category v) (new_quantity v)
      (new_price v) (new_supplier v) (new_location v) (new_reorder v)
      (Inv.Expiry_Date r) (Inv.Status r).
Proof. by destruct r. Qed.

(** A run of the edit tab. *)
Lemma edit_product_tab_run pid btn st :
  edit_product_tab (Some pid) btn st
  = if truthy_str pid then
      match list_find (fun r => Inv.Product_ID r = pid) (inventory st) with
      | None => Raised IndexError st
      | Some (idx, product) =>
          match list_index (Inv.Category product) category_options,
                list_index (Inv.Location product) location_options with
          | Some _, Some _ =>
              match btn with
              | None =>
                  Returned
                    (Form {| new_name := Inv.Product_Name product;
                             new_category := Inv.Category product;
                             new_quantity := Inv.Quantity product;
                             new_price := Inv.Price product;
                             new_supplier := Inv.Supplier product;
                             new_location := Inv.Location product;
                             new_reorder := Inv.Reorder_Level product |}) st
              | Some v =>
                  Returned (Updated "Product updated successfully")
                    {| inventory :=
                         alter (fun r =>
                                  Inv.mk (Inv.Product_ID r) (new_name v)
                                    (new_category v) (new_quantity v)
                                    (new_price v) (new_supplier v)
                                    (new_location v) (new_reorder v)
                                    (Inv.Expiry_Date r) (Inv.Status r))
                               idx (inventory st);
                       transactions := transactions st |}
              end
          | _, _ => Returned ValueError st
          end
      end
    else Returned No_Form st.
Proof.
  unfold edit_product_tab. destruct (truthy_str pid); [|done].
  unfold bind at 1. unfold get_inventory.
  pose proof (first_row 0 (inventory st) pid) as H.
  unfold bool_index. rewrite series_eq_col, with_index_label_from.
  destruct (select _ _) as [|[i product] rest];
    destruct (list_find _ (inventory st)) as [[idx x]|] eqn:Hfind;
    cbn in H; try discriminate H; [done|].
  injection H as -> ->.
  destruct (list_index (Inv.Category x) category_options),
    (list_index (Inv.Location x) location_options); try done.
  destruct btn as [v|]; [|done].
  unfold bind. rewrite update_product_run, Hfind. unfold ret. do 2 f_equal.
  apply list_alter_ext; [|done]. intros r _. apply edit_updates_row.
Qed.

Lemma delete_product_tab_None st :
  delete_product_tab None st = Returned "Product deleted successfully" st.
Proof.
  unfold delete_product_tab, bind, get_inventory, set_inventory, ret, bool_index.
  unfold col. rewrite map_map.
  rewrite (bool_index_filter (fun _ => true) (inventory st) : select _ _ = _).
  rewrite filter_all by done.
  rewrite with_index_label_from, reset_index_label_from. by destruct st.
Qed.

Lemma list_find_elem pid (inv : list Inv.row) idx r :
  list_find (fun r => Inv.Product_ID r = pid) inv = Some (idx, r) ->
  inv !! idx = Some r /\ r ∈ inv /\ Inv.Product_ID r = pid.
Proof.
  intros (Hr & Hid & _)%list_find_Some. split_and!; [done | | done].
  apply list_elem_of_lookup. by exists idx.
Qed.

Lemma numbered_exec o st :
  numbered 0 (transactions st) -> numbered 0 (transactions (exec o st)).
Proof.
  intros Hn. destruct (exec_appends o st) as (extra & -> & Hextra).
  by apply numbered_app.
Qed.

(** The session a use of the page leaves. *)
Lemma ui_step_run e st :
  ui_invariant st -> widgets_allow st e ->
  exists st', ui_step e st = Returned tt st' /\ ui_invariant st'.
Proof.
  intros (Hnd & Hrows & Hnum) Hallow.
  destruct e as [now pid name cat qty price sup loc reorder | pid v | [pid|]].
  - (* the add form *)
    destruct Hallow as (Hcat & Hloc & Hq & Hp & Hr).
    set (P := Inv.mk pid name cat qty price sup loc reorder None "Active").
    pose proof (add_product_keeps_unique now P st Hnd) as Hnd'.
    pose proof (numbered_exec (Add now P) st Hnum) as Hnum'.
    cbn [exec] in Hnum'.
    unfold ui_step, add_product_tab. fold P. unfold bind.
    rewrite add_product_run in *.
    destruct (isin _ _); cbn [fst snd final_state] in *.
    + exists st. by split.
    + eexists. split; [reflexivity|]. split_and!; [done | | done].
      cbn [inventory]. apply Forall_app. split; [done|].
      apply Forall_singleton. by split_and!.
  - (* the edit form *)
    destruct Hallow as (Hin & Hcat & Hloc & Hq & Hp & Hr).
    unfold ui_step, bind. rewrite edit_product_tab_run.
    destruct (truthy_str pid); [|exists st; by split].
    destruct (list_find_ids_Some pid _ Hin) as (idx & product & Hfind).
    rewrite Hfind. apply list_find_elem in Hfind as (Hidx & Hprod & Hid).
    pose proof (proj1 (Forall_forall _ _) Hrows product Hprod)
      as (Hc & Hl & _ & _ & _ & He & Hs).
    apply list_index_Some in Hc as [n ->]. apply list_index_Some in Hl as [m ->].
    eexists. split; [reflexivity|]. split_and!; cbn [inventory transactions].
    + by rewrite alter_col_same.
    + apply Forall_alter; [done|]. intros r Hr' (_ & _ & _ & _ & _ & He' & Hs').
      by split_and!.
    + done.
  - (* the delete button, a product selected *)
    unfold ui_step, delete_product_tab, bind. rewrite delete_product_run.
    eexists. split; [reflexivity|]. split_and!; cbn [inventory transactions].
    + unfold col. eapply sublist_NoDup; [exact Hnd|].
      apply (fmap_sublist Inv.Product_ID), sublist_filter.
    + apply Forall_forall. intros r [_ Hr]%list_elem_of_filter.
      by apply (proj1 (Forall_forall _ _) Hrows).
    + done.
  - (* the delete button, nothing to select *)
    unfold ui_step, bind. rewrite delete_product_tab_None.
    exists st. by split.
Qed.

Lemma seed_invariant now now' : ui_invariant (seed now now').
Proof.
  split_and!.
  - apply seed_ids_unique.
  - cbn [seed inventory seed_inventory].
    repeat (apply Forall_cons; split;
            [split_and!; try done; by apply (bool_decide_unpack _)|]).
    apply Forall_nil. exact I.
  - apply seed_numbered.
Qed.

Lemma ui_reachable_invariant st : ui_reachable st -> ui_invariant st.
Proof.
  induction 1 as [now now' | st e Hst IH Hallow]; [apply seed_invariant|].
  destruct (ui_step_run e st IH Hallow) as (st' & -> & Hinv). exact Hinv.
Qed.

(** X21. In every session the product management page can bring about from
    the seeded one (its select boxes returning one of their options, its
    number inputs no negative number), no two rows of Inventory share a
    Product ID, every row has a Category and a Location of the forms' lists,
    Quantity, Price and Reorder Level that are not negative, no Expiry Date
    and the Status 'Active', and every row of Transactions is numbered by its
    position, so that the Transaction IDs are distinct too. *)
Theorem product_page_invariant (st : session_state) :
  ui_reachable st ->
  NoDup (col Inv.Product_ID (inventory st))
  /\ (forall r,
        r ∈ inventory st ->
        Inv.Category r ∈ category_options /\ Inv.Location r ∈ location_options
        /\ 0 <= Inv.Quantity r /\ (0 <= Inv.Price r)%Qc
        /\ 0 <= Inv.Reorder_Level r
        /\ Inv.Expiry_Date r = None /\ Inv.Status r = "Active")
  /\ (forall i t,
        transactions st !! i = Some t ->
        Txn.Transaction_ID t = "T" +:+ format_03d (i + 1))
  /\ NoDup (map Txn.Transaction_ID (transactions st)).
Proof.
  intros (Hnd & Hrows & Hnum)%ui_reachable_invariant. split_and!.
  - done.
  - intros r Hr. by apply (proj1 (Forall_forall _ _) Hrows).
  - intros i t Hi. by rewrite (Hnum i t Hi).
  - by apply (numbered_ids 0).
Qed.

Lemma product_page_invariant_witness :
  NoDup (col Inv.Product_ID
           (inventory
              (final_state
                 (ui_step (Edit_Submitted "P002"
                             {| new_name := "Mouse"; new_category := "Other";
                                new_quantity := 0; new_price := Qc_of_Z 450;
                                new_supplier := "PeriTech";
                                new_location := "Store Front";
                                new_reorder := 20 |})
                          (seed 98 99))))).
Proof.
  apply product_page_invariant. apply ui_next; [apply ui_seed|].
  split_and!; try (by apply (bool_decide_unpack _)); done.
Defined.



Lemma alter_fixed {A} (f : A -> A) idx (l : list A) x :
  l !! idx = Some x -> f x = x -> alter f idx l = l.
Proof.
  intros Hx Hf. apply list_eq. intros j. destruct (decide (idx = j)) as [<- | Hne].
  - rewrite list_lookup_alter_eq, Hx. simpl. by rewrite Hf.
  - by apply list_lookup_alter_ne.
Qed.

(** X23. Pressing "Update Product" without touching the form changes
    nothing: when the edit tab shows its form for a product, submitting the
    form's initial values reports the update and leaves the session exactly
    as it was. *)
Theorem edit_form_unchanged pid initial (st : session_state) :
  edit_product_tab (Some pid) None st = Returned (Form initial) st ->
  edit_product_tab (Some pid) (Some initial) st
  = Returned (Updated "Product updated successfully") st.
Proof.
  rewrite !edit_product_tab_run. destruct (truthy_str pid); [|done].
  destruct (list_find _ _) as [[idx product]|] eqn:Hfind; [|done].
  destruct (list_index _ category_options); [|done].
  destruct (list_index _ location_options); [|done].
  intros [= <-]. cbn [new_name new_category new_quantity new_price
                      new_supplier new_location new_reorder].
  apply list_find_elem in Hfind as (Hidx & _ & _).
  rewrite (alter_fixed _ idx (inventory st) product Hidx) by (by destruct product).
  by destruct st.
Qed.

Lemma edit_form_unchanged_witness :
  edit_product_tab (Some "P001")
    (Some {| new_name := "Laptop"; new_category := "Electronics";
             new_quantity := 50; new_price := Qc_of_Z 80000;
             new_supplier := "TechCorp"; new_location := "Warehouse A";
             new_reorder := 10 |}) (seed 98 99)
  = Returned (Updated "Product updated successfully") (seed 98 99).
Proof. apply edit_form_unchanged. reflexivity. Defined.

(** X24. The edit tab cannot show a product whose Category (or Location)
    is not among the options of its select box: the look-up of the initial
    option raises ValueError, and nothing is updated even when the form's
    button was pressed.  Such rows come from [add_product] or
    [update_product] used without the forms. *)
Theorem edit_tab_unknown_option pid btn (st : session_state) idx product :
  pid <> EmptyString ->
  list_find (fun r => Inv.Product_ID r = pid) (inventory st) = Some (idx, product) ->
  Inv.Category product ∉ category_options
  \/ Inv.Location product ∉ location_options ->
  edit_product_tab (Some pid) btn st = Returned ValueError st.
Proof.
  intros Hpid Hfind Hbad. rewrite edit_product_tab_run, Hfind.
  destruct pid; [done|]. cbn [truthy_str].
  destruct (list_index (Inv.Category product) category_options) eqn:Ec;
    destruct (list_index (Inv.Location product) location_options) eqn:El;
    try done.
  destruct Hbad as [Hbad | Hbad]; exfalso; apply Hbad, list_index_Some; by eexists.
Qed.

Lemma edit_tab_unknown_option_witness :
  exists st',
    add_product 100
      (Inv.mk "P005" "Kite" "Toys" 3 (Qc_of_Z 250) "WindCo" "Warehouse A" 1
         None "Active") (seed 98 99)
    = Returned (true, "Product added successfully") st'
    /\ edit_product_tab (Some "P005") None st' = Returned ValueError st'.
Proof.
  eexists. split; [rewrite add_product_run; reflexivity|].
  eapply (edit_tab_unknown_option "P005" None _ 3%nat);
    [discriminate | reflexivity |].
  left. cbn [Inv.Category]. apply (bool_decide_unpack _). vm_compute. exact I.
Defined.

(** X25. The add form accepts an empty Product ID when no row has one, and
    the row it adds can then never be edited: the edit tab shows no form for
    the empty identifier, whatever is submitted, and leaves the session as
    it is. *)
Theorem empty_product_id_not_editable now name cat qty price sup loc reorder
    btn (st : session_state) :
  EmptyString ∉ col Inv.Product_ID (inventory st) ->
  exists st',
    add_product_tab now EmptyString name cat qty price sup loc reorder st
    = Returned (St_success "Product added successfully") st'
    /\ EmptyString ∈ col Inv.Product_ID (inventory st')
    /\ edit_product_tab (Some EmptyString) btn st' = Returned No_Form st'.
Proof.
  intros Hfresh%isin_false. unfold add_product_tab, bind.
  rewrite add_product_run. cbn [Inv.Product_ID]. rewrite Hfresh.
  eexists. split; [reflexivity|]. split; [|by rewrite edit_product_tab_run].
  cbn [inventory]. unfold col. rewrite map_app. apply elem_of_app. right.
  by left.
Qed.

Lemma empty_product_id_not_editable_witness :
  exists st',
    add_product_tab 100 EmptyString "Unnamed" "Other" 0 (Qc_of_Z 0)
      EmptyString "Store Front" 10 (seed 98 99)
    = Returned (St_success "Product added successfully") st'
    /\ EmptyString ∈ col Inv.Product_ID (inventory st')
    /\ edit_product_tab (Some EmptyString) None st' = Returned No_Form st'.
Proof.
  apply empty_product_id_not_editable.
  apply (bool_decide_unpack _). vm_compute. exact I.
Defined.
